(** * OpenShift telemetry percentage script: aggregation engine

    A shallow embedding of [openshift_telemetry_percentage_script.py]
    (class [CloudBoltOpenshiftMetrics]) and the properties of its
    percentage calculator and of its per-node / per-namespace merge.

    Layout:
    - [B64]     Python floats: IEEE 754 binary64 values, the correctly
                rounded operations [/], [*], [+], the comparisons, and
                [round(x, 4)];
    - [Py]      exceptions, the error monad, insertion-ordered dicts,
                [max] and [list.remove];
    - [Metrics] the methods of [CloudBoltOpenshiftMetrics];
    - the properties. *)

From Stdlib Require Import ZArith QArith Qround Qabs Qpower Lia Lqa.
From Stdlib Require Import Bool List String SpecFloat Permutation.
Import ListNotations.

Local Open Scope Z_scope.

(* ================================================================== *)
(** * Python floats *)
(* ================================================================== *)

Module B64.

(** A Python [float] is an IEEE 754 binary64 number.  The carrier is the
    Standard Library's [spec_float]: a signed zero, a signed infinity, a
    NaN, or [S754_finite s m e] standing for [(-1)^s * m * 2^e]. *)
Definition float := spec_float.

Definition prec : Z := 53.
Definition emax : Z := 1024.
Definition emin : Z := -1074.

(** [2^e] as a rational, for every integer [e]. *)
Definition pow2 (e : Z) : Q := (2 ^ e)%Q.

(** Round half to even, from the rationals to the integers. *)
Definition rne (q : Q) : Z :=
  let f := Qfloor q in
  match (q - inject_Z f ?= 1 # 2)%Q with
  | Lt => f
  | Gt => f + 1
  | Eq => if Z.even f then f else f + 1
  end.

(** [ilog2 q] is the integer [k] with [2^k <= q < 2^(k+1)], for [0 < q]. *)
Definition ilog2 (q : Q) : Z :=
  let k := Z.log2 (Qnum q) - Z.log2 (Zpos (Qden q)) in
  if Qle_bool (pow2 k) q then k else k - 1.

(** Exponent of the unit in the last place of a number of magnitude
    [2^lg]: 53 significant bits, and never below the subnormal
    exponent. *)
Definition fexp (lg : Z) : Z := Z.max (lg - (prec - 1)) emin.

(** Rounding of a positive rational to nearest, ties to even, with an
    unbounded exponent: the integer significand and its exponent. *)
Definition round_pos (q : Q) : Z * Z :=
  let e := fexp (ilog2 q) in
  (rne (q * pow2 (- e)), e).

Definition mag_value (me : Z * Z) : Q := (inject_Z (fst me) * pow2 (snd me))%Q.

(** Packing of a rounded magnitude: overflow to infinity when the rounded
    value reaches [2^emax], a zero when it vanished, else the canonical
    significand (a significand of [2^53] is renormalised). *)
Definition pack (s : bool) (me : Z * Z) : float :=
  if Qle_bool (pow2 emax) (mag_value me) then S754_infinity s
  else
    let (m, e) := me in
    let (m, e) := if m =? 2 ^ prec then (2 ^ (prec - 1), e + 1) else (m, e) in
    match m with
    | Zpos p => S754_finite s p e
    | _ => S754_zero s
    end.

(** Correct rounding of an exact rational result; [zs] is the sign that
    a result of exactly zero takes. *)
Definition round_q (zs : bool) (q : Q) : float :=
  match (q ?= 0)%Q with
  | Eq => S754_zero zs
  | Gt => pack false (round_pos q)
  | Lt => pack true (round_pos (- q))
  end.

(** The exact value of a finite float. *)
Definition mag (m : positive) (e : Z) : Q := (inject_Z (Zpos m) * pow2 e)%Q.

Definition F2Q (x : float) : Q :=
  match x with
  | S754_finite s m e => if s then (- mag m e)%Q else mag m e
  | _ => 0%Q
  end.

(** Conversion of an integer literal, as in [float(4)] or the [100] of
    [x * 100]. *)
Definition Z2F (z : Z) : float := round_q false (inject_Z z).

Definition sign (x : float) : bool :=
  match x with
  | S754_zero s | S754_infinity s | S754_finite s _ _ => s
  | S754_nan => false
  end.

Definition is_nan (x : float) : bool :=
  match x with S754_nan => true | _ => false end.

Definition is_zero (x : float) : bool :=
  match x with S754_zero _ => true | _ => false end.

Definition is_infinite (x : float) : bool :=
  match x with S754_infinity _ => true | _ => false end.

(** Zero or finite non-zero: a float that denotes a rational. *)
Definition is_finite (x : float) : bool :=
  match x with S754_zero _ | S754_finite _ _ _ => true | _ => false end.

(** ** Comparisons: [x <= y], [x < y], [x > y], [x == y] *)

Definition fle (x y : float) : bool :=
  match x, y with
  | S754_nan, _ | _, S754_nan => false
  | S754_infinity true, _ => true
  | _, S754_infinity false => true
  | S754_infinity false, _ => false
  | _, S754_infinity true => false
  | _, _ => Qle_bool (F2Q x) (F2Q y)
  end.

Definition flt (x y : float) : bool :=
  negb (is_nan x) && negb (is_nan y) && negb (fle y x).

Definition fgt (x y : float) : bool := flt y x.

Definition feq (x y : float) : bool := fle x y && fle y x.

(** ** Arithmetic: the exact result, correctly rounded *)

Definition fdiv (x y : float) : float :=
  match x, y with
  | S754_nan, _ | _, S754_nan => S754_nan
  | S754_infinity _, S754_infinity _ => S754_nan
  | S754_infinity sx, _ => S754_infinity (xorb sx (sign y))
  | _, S754_infinity sy => S754_zero (xorb (sign x) sy)
  | S754_zero _, S754_zero _ => S754_nan
  | S754_finite sx _ _, S754_zero sy => S754_infinity (xorb sx sy)
  | _, _ => round_q (xorb (sign x) (sign y)) (F2Q x / F2Q y)
  end.

Definition fmul (x y : float) : float :=
  match x, y with
  | S754_nan, _ | _, S754_nan => S754_nan
  | S754_infinity _, S754_zero _ | S754_zero _, S754_infinity _ => S754_nan
  | S754_infinity sx, _ => S754_infinity (xorb sx (sign y))
  | _, S754_infinity sy => S754_infinity (xorb (sign x) sy)
  | _, _ => round_q (xorb (sign x) (sign y)) (F2Q x * F2Q y)
  end.

Definition fadd (x y : float) : float :=
  match x, y with
  | S754_nan, _ | _, S754_nan => S754_nan
  | S754_infinity sx, S754_infinity sy =>
      if Bool.eqb sx sy then x else S754_nan
  | S754_infinity _, _ => x
  | _, S754_infinity _ => y
  | S754_zero sx, S754_zero sy =>
      if Bool.eqb sx sy then x else S754_zero false
  | S754_zero _, _ => y
  | _, S754_zero _ => x
  | _, _ => round_q false (F2Q x + F2Q y)
  end.

(** ** [round(x, ndigits)]

    CPython rounds the exact value of [x] to [ndigits] decimal places,
    half to even ([_Py_dg_dtoa], mode 3), and converts that decimal back
    to the nearest float ([_Py_dg_strtod]); the sign of [x] is kept on a
    zero result, NaN and the infinities round to themselves.  The result
    is the float, or [None] when the conversion back overflows (CPython
    then raises [OverflowError]). *)
Definition NDIGITS_MAX : Z := 323.
Definition NDIGITS_MIN : Z := -308.

Definition pow10 (n : Z) : Q := (10 ^ n)%Q.

Definition double_round (x : float) (ndigits : Z) : option float :=
  let n := rne (F2Q x * pow10 ndigits) in
  let rounded := round_q (sign x) (inject_Z n / pow10 ndigits) in
  if is_infinite rounded then None else Some rounded.

Definition float_round (x : float) (ndigits : Z) : option float :=
  if negb (is_finite x) then Some x
  else if NDIGITS_MAX <? ndigits then Some x
  else if ndigits <? NDIGITS_MIN then Some (S754_zero (sign x))
  else double_round x ndigits.

(** The largest finite float, [sys.float_info.max]. *)
Definition max_float : float := S754_finite false 9007199254740991 971.

(** A float within the range of binary64: every float of a run is, the
    carrier alone does not say so. *)
Definition bounded (x : float) : bool :=
  Qle_bool (- F2Q max_float) (F2Q x) && Qle_bool (F2Q x) (F2Q max_float).

(** Structural equality (same bits), not Python's [==]. *)
Definition same (x y : float) : bool :=
  match x, y with
  | S754_nan, S754_nan => true
  | S754_zero a, S754_zero b | S754_infinity a, S754_infinity b => Bool.eqb a b
  | S754_finite a m e, S754_finite b n f =>
      Bool.eqb a b && Pos.eqb m n && Z.eqb e f
  | _, _ => false
  end.

End B64.

(* ================================================================== *)
(** * Python: exceptions, dicts, [max], [list.remove] *)
(* ================================================================== *)

Module Py.
Import B64.

Inductive exn : Set :=
| ZeroDivisionError
| OverflowError
| TypeError
| ValueError.

Definition exn_eqb (a b : exn) : bool :=
  match a, b with
  | ZeroDivisionError, ZeroDivisionError
  | OverflowError, OverflowError
  | TypeError, TypeError
  | ValueError, ValueError => true
  | _, _ => false
  end.

(** A computation returns a value or raises. *)
Inductive result (A : Type) : Type :=
| Ok (a : A)
| Raise (e : exn).
Arguments Ok {A} a.
Arguments Raise {A} e.

Definition bind {A B : Type} (c : result A) (k : A -> result B) : result B :=
  match c with
  | Ok a => k a
  | Raise e => Raise e
  end.

(** [try: body  except E: handler] *)
Definition try_except {A : Type} (body : result A) (E : exn)
    (handler : result A) : result A :=
  match body with
  | Ok a => Ok a
  | Raise e => if exn_eqb e E then handler else Raise e
  end.

(** [x / y] on floats: a zero divisor raises, whatever the dividend. *)
Definition truediv (x y : float) : result float :=
  if is_zero y then Raise ZeroDivisionError else Ok (fdiv x y).

(** [round(x, ndigits)] on a float. *)
Definition round (x : float) (ndigits : Z) : result float :=
  match float_round x ndigits with
  | Some r => Ok r
  | None => Raise OverflowError
  end.

(** [max(l)]: the first item is kept until a strictly greater one comes;
    an empty list raises. *)
Definition max_step (max_item item : float) : float :=
  if fgt item max_item then item else max_item.

Definition max (l : list float) : result float :=
  match l with
  | [] => Raise ValueError
  | x :: rest => Ok (fold_left max_step rest x)
  end.

(** [next((x for x in l if p(x)), None)] *)
Definition next_or_none {A : Type} (p : A -> bool) (l : list A) : option A :=
  find p l.

(** [l.remove(x)]: the first item that is [x] goes; none raises.  The
    items are compared by [eqb]. *)
Fixpoint remove {A : Type} (eqb : A -> A -> bool) (x : A) (l : list A)
    : result (list A) :=
  match l with
  | [] => Raise ValueError
  | y :: rest =>
      if eqb y x then Ok rest
      else bind (remove eqb x rest) (fun rest' => Ok (y :: rest'))
  end.

(** ** Dicts, in insertion order *)

Definition dict (V : Type) : Type := list (string * V).

(** [d.get(key, default)] *)
Fixpoint get {V : Type} (d : dict V) (key : string) (default : V) : V :=
  match d with
  | [] => default
  | (k, v) :: rest => if String.eqb k key then v else get rest key default
  end.

(** [d[key] = v]: a key already there keeps its place. *)
Fixpoint set {V : Type} (d : dict V) (key : string) (v : V) : dict V :=
  match d with
  | [] => [(key, v)]
  | (k, w) :: rest =>
      if String.eqb k key then (k, v) :: rest else (k, w) :: set rest key v
  end.

Definition keys {V : Type} (d : dict V) : list string := map fst d.
Definition values {V : Type} (d : dict V) : list V := map snd d.

(** [{key: f(key) for key in ks}] *)
Definition comprehension {V : Type} (f : string -> V) (ks : list string)
    : dict V :=
  fold_left (fun d key => set d key (f key)) ks [].

Fixpoint dict_same (d1 d2 : dict float) : bool :=
  match d1, d2 with
  | [], [] => true
  | (k1, v1) :: r1, (k2, v2) :: r2 =>
      String.eqb k1 k2 && same v1 v2 && dict_same r1 r2
  | _, _ => false
  end.

End Py.

Declare Scope py_scope.
Delimit Scope py_scope with py.
Notation "x <- c ;; k" := (Py.bind c (fun x => k))
  (at level 61, c at next level, right associativity) : py_scope.

(* ================================================================== *)
(** * The script: class [CloudBoltOpenshiftMetrics] *)
(* ================================================================== *)

Module Metrics.
Import B64 Py.
Local Open Scope string_scope.
Local Open Scope py_scope.

(** ** Data

    The records of the reporting API are JSON objects with a fixed set of
    keys; they are records here, a field per key, prefixed by the kind of
    record.  A numeric field holds the float that [float(...)] makes of
    it. *)

(** A record of the capacity query. *)
Record capacity_record : Type := {
  c_node_id : string;
  c_namespace : string;
  c_pod_name : string;
  node_capacity_cpu : float;
  node_capacity_cpu_unit : string;
  node_capacity_memory : float;
  node_capacity_memory_unit : string
}.

(** A record of the usage query ([result], [metrics] in the script). *)
Record usage_record : Type := {
  u_node_id : string;
  u_node_name : string;
  u_namespace : string;
  u_pod_name : string;
  pod_usage_cpu : float;
  pod_usage_cpu_unit : string;
  pod_request_cpu : float;
  pod_request_cpu_unit : string;
  pod_usage_memory : float;
  pod_usage_memory_unit : string;
  pod_request_memory : float;
  pod_request_memory_unit : string
}.

(** The dict built by [__namespace_wise_utilization_dict].  Its keys
    ["namespace"], ["utilization"], ["utilization_unit"] and ["details"]
    are always there; the key ["node_id"] is there until it is popped, so
    its field is optional.  ["details"] is a dict of its own, read with
    [.get(key, 0)]. *)
Record utilization_entry : Type := {
  e_namespace : string;
  e_utilization : float;
  e_utilization_unit : string;
  e_node_id : option string;
  e_details : dict float
}.

(** The keys of that dict, in insertion order. *)
Definition entry_keys (e : utilization_entry) : list string :=
  ["namespace"; "utilization"; "utilization_unit"]
  ++ match e_node_id e with Some _ => ["node_id"] | None => [] end
  ++ ["details"].

(** [d.pop('node_id', 'key_not_found')] *)
Definition pop_node_id (e : utilization_entry) : utilization_entry :=
  {| e_namespace := e_namespace e;
     e_utilization := e_utilization e;
     e_utilization_unit := e_utilization_unit e;
     e_node_id := None;
     e_details := e_details e |}.

(** An item of [node_id_wise_reponse]. *)
Record node_record : Type := {
  n_node_id : string;
  n_node_name : string;
  utilization_detail : list utilization_entry
}.

(** The fields of [self]. *)
Record self_state : Type := {
  name_space_wise_response : list utilization_entry;
  node_id_wise_reponse : list node_record;
  capacity_map_array : list capacity_record
}.

(** [__init__] *)
Definition init : self_state :=
  {| name_space_wise_response := [];
     node_id_wise_reponse := [];
     capacity_map_array := [] |}.

Definition set_node_id_wise_reponse (self : self_state)
    (nodes : list node_record) : self_state :=
  {| name_space_wise_response := name_space_wise_response self;
     node_id_wise_reponse := nodes;
     capacity_map_array := capacity_map_array self |}.

Definition set_capacity_map_array (self : self_state)
    (caps : list capacity_record) : self_state :=
  {| name_space_wise_response := name_space_wise_response self;
     node_id_wise_reponse := node_id_wise_reponse self;
     capacity_map_array := caps |}.

Definition option_string_eqb (a b : option string) : bool :=
  match a, b with
  | None, None => true
  | Some x, Some y => String.eqb x y
  | _, _ => false
  end.

(** Equality of two entries, for [list.remove]: [remove] takes the first
    item that is its argument or equals it.  Its argument is an item of
    the list here. *)
Definition entry_eqb (a b : utilization_entry) : bool :=
  String.eqb (e_namespace a) (e_namespace b)
  && same (e_utilization a) (e_utilization b)
  && String.eqb (e_utilization_unit a) (e_utilization_unit b)
  && option_string_eqb (e_node_id a) (e_node_id b)
  && dict_same (e_details a) (e_details b).

(** A dict mutated in place inside a list: the first item that [p] picks
    is updated by [f].  *)
Fixpoint update_first {A : Type} (p : A -> bool) (f : A -> A) (l : list A)
    : list A :=
  match l with
  | [] => []
  | x :: rest => if p x then f x :: rest else x :: update_first p f rest
  end.

(** [node['utilization_detail'] = detail] *)
Definition set_utilization_detail (detail : list utilization_entry)
    (node : node_record) : node_record :=
  {| n_node_id := n_node_id node;
     n_node_name := n_node_name node;
     utilization_detail := detail |}.

(** ** The percentage calculator *)

(** [float(x)] of a field.  A numeric field of a record stands for the
    float that [float()] makes of its JSON value, so [float()] is the
    identity here; a value that [float()] refuses (a string that is no
    number, an [int] beyond the range of the floats) is outside of the
    model. *)
Definition float_of (x : float) : float := x.

Definition convert_milicores_to_cores (milicores : float) : result float :=
  truediv milicores (Z2F 1000).

Definition convert_mb_to_gb (mb : float) : result float :=
  truediv mb (Z2F 1024).

(** The two [if]s of [__calculate_percentage] that convert the usage. *)
Definition convert (actual_usage : float) (actual_usage_unit : string)
    : result float :=
  actual_usage <-
    (if String.eqb actual_usage_unit "milicores"
     then convert_milicores_to_cores actual_usage
     else Ok actual_usage) ;;
  (if String.eqb actual_usage_unit "MiB"
   then convert_mb_to_gb actual_usage
   else Ok actual_usage).

Definition calculate_percentage (capacity actual_usage : float)
    (capacity_unit actual_usage_unit : string) : result float :=
  let capacity := float_of capacity in
  let actual_usage := float_of actual_usage in
  try_except
    (actual_usage <- convert actual_usage actual_usage_unit ;;
     ratio <- truediv actual_usage capacity ;;
     round (fmul ratio (Z2F 100)) 4)
    ZeroDivisionError
    (Ok (S754_zero false)).

(** The capacity record of a usage record: [None] when there is none. *)
Definition capacity_details_of (self : self_state) (metrics : usage_record)
    : option capacity_record :=
  next_or_none
    (fun capacity_detail =>
       String.eqb (c_node_id capacity_detail) (u_node_id metrics)
       && String.eqb (c_namespace capacity_detail) (u_namespace metrics)
       && String.eqb (c_pod_name capacity_detail) (u_pod_name metrics))
    (capacity_map_array self).

(** [__metric_usage_percentage]: subscripting [None] raises [TypeError]. *)
Definition metric_usage_percentage (self : self_state)
    (metrics : usage_record) : result (dict float) :=
  match capacity_details_of self metrics with
  | None => Raise TypeError
  | Some capacity_details =>
      cpu_usage <-
        calculate_percentage (node_capacity_cpu capacity_details)
          (pod_usage_cpu metrics)
          (node_capacity_cpu_unit capacity_details)
          (pod_usage_cpu_unit metrics) ;;
      memory_usage <-
        calculate_percentage (node_capacity_memory capacity_details)
          (pod_usage_memory metrics)
          (node_capacity_memory_unit capacity_details)
          (pod_usage_memory_unit metrics) ;;
      cpu_request <-
        calculate_percentage (node_capacity_cpu capacity_details)
          (pod_request_cpu metrics)
          (node_capacity_cpu_unit capacity_details)
          (pod_request_cpu_unit metrics) ;;
      memory_request <-
        calculate_percentage (node_capacity_memory capacity_details)
          (pod_request_memory metrics)
          (node_capacity_memory_unit capacity_details)
          (pod_request_memory_unit metrics) ;;
      Ok [("cpu_usage_percentage", cpu_usage);
          ("memory_usage_percentage", memory_usage);
          ("cpu_request_percentage", cpu_request);
          ("memory_request_percentage", memory_request)]
  end.

(** ** The aggregator *)

Definition namespace_wise_utilization_dict (result : usage_record)
    (usage_percentages : dict float) : Py.result utilization_entry :=
  utilization <- max (values usage_percentages) ;;
  Ok {| e_namespace := u_namespace result;
        e_utilization := utilization;
        e_utilization_unit := "percent";
        e_node_id := Some (u_node_id result);
        e_details := usage_percentages |}.

Definition percentage_keys : list string :=
  ["cpu_usage_percentage"; "memory_usage_percentage";
   "cpu_request_percentage"; "memory_request_percentage"].

(** The value of a key in the dict comprehension of the merge:
    [.get(key, 0)] on both sides, the sum rounded.  The default [0] is an
    [int]; added to a float it is the float [0.0]. *)
Definition sum_rounded (old new : dict float) (key : string) : result float :=
  round (fadd (get old key (Z2F 0)) (get new key (Z2F 0))) 4.

Definition merge_details (old new : dict float) : result (dict float) :=
  fold_left
    (fun acc key =>
       d <- acc ;;
       v <- sum_rounded old new key ;;
       Ok (set d key v))
    percentage_keys (Ok []).

(** The merged entry that replaces [namespace_utilization], the entry
    found, when [namespace_wise_utilization_dict] comes for its
    namespace (lines 97 to 104). *)
Definition merge_entries
    (namespace_utilization namespace_wise_utilization_dict : utilization_entry)
    : result utilization_entry :=
  percentage_details <-
    merge_details (e_details namespace_utilization)
      (e_details namespace_wise_utilization_dict) ;;
  utilization <- max (values percentage_details) ;;
  Ok {| e_namespace := e_namespace namespace_wise_utilization_dict;
        e_utilization := utilization;
        e_utilization_unit := "percent";
        e_node_id := None;
        e_details := percentage_details |}.

(** The two generator conditions of [__build_node_id_wise_result]. *)
Definition is_node (node_id : string) (node_detail : node_record) : bool :=
  String.eqb (n_node_id node_detail) node_id.

Definition in_namespace (namespace : string) (item : utilization_entry)
    : bool :=
  String.eqb (e_namespace item) namespace.

Definition build_node_id_wise_result (self : self_state)
    (node_id node_name : string)
    (namespace_wise_utilization_dict : utilization_entry)
    : result self_state :=
  let existing_node_record :=
    next_or_none (is_node node_id) (node_id_wise_reponse self) in
  let namespace_wise_utilization_dict :=
    pop_node_id namespace_wise_utilization_dict in
  match existing_node_record with
  | None =>
      let new_node_record :=
        {| n_node_id := node_id;
           n_node_name := node_name;
           utilization_detail := [namespace_wise_utilization_dict] |} in
      Ok (set_node_id_wise_reponse self
            (node_id_wise_reponse self ++ [new_node_record]))
  | Some existing_node_record =>
      let namespace_utilization :=
        next_or_none
          (in_namespace (e_namespace namespace_wise_utilization_dict))
          (utilization_detail existing_node_record) in
      match namespace_utilization with
      | None =>
          Ok (set_node_id_wise_reponse self
                (update_first (is_node node_id)
                   (set_utilization_detail
                      (utilization_detail existing_node_record
                       ++ [namespace_wise_utilization_dict]))
                   (node_id_wise_reponse self)))
      | Some namespace_utilization =>
          detail <-
            remove entry_eqb namespace_utilization
              (utilization_detail existing_node_record) ;;
          new_namespace_wise_utilization_dict <-
            merge_entries namespace_utilization
              namespace_wise_utilization_dict ;;
          Ok (set_node_id_wise_reponse self
                (update_first (is_node node_id)
                   (set_utilization_detail
                      (detail ++ [new_namespace_wise_utilization_dict]))
                   (node_id_wise_reponse self)))
      end
  end.

(** The body of the [for result in response['response']] loop.  The
    [.copy()] of the entry is shallow and the original is dropped: it is
    the entry itself here. *)
Definition ingest (self : self_state) (result : usage_record)
    : Py.result self_state :=
  usage_percentages <- metric_usage_percentage self result ;;
  name_space_utilization <-
    namespace_wise_utilization_dict result usage_percentages ;;
  build_node_id_wise_result self (u_node_id result) (u_node_name result)
    name_space_utilization.

(** The [for] loop: the first record that raises ends it. *)
Fixpoint ingest_all (self : self_state) (response : list usage_record)
    : result self_state :=
  match response with
  | [] => Ok self
  | result :: rest => self' <- ingest self result ;; ingest_all self' rest
  end.

(** ** The two paginated requests

    The reporting API is the list of the replies it gives, one per
    request. *)
Record api_reply (R : Type) : Type := {
  status_code : Z;
  response : list R;
  next_token : option string
}.
Arguments status_code {R} _.
Arguments response {R} _.
Arguments next_token {R} _.

Fixpoint save_capacity_data (self : self_state)
    (replies : list (api_reply capacity_record)) : self_state :=
  match replies with
  | [] => self
  | reply :: later =>
      if Z.eqb (status_code reply) 200 then
        let self := set_capacity_map_array self
                      (capacity_map_array self ++ response reply) in
        match next_token reply with
        | None => self
        | Some _ => save_capacity_data self later
        end
      else self
  end.

Fixpoint request_openshift_report_api (self : self_state)
    (replies : list (api_reply usage_record)) : result self_state :=
  match replies with
  | [] => Ok self
  | reply :: later =>
      if Z.eqb (status_code reply) 200 then
        self <- ingest_all self (response reply) ;;
        match next_token reply with
        | None => Ok self
        | Some _ => request_openshift_report_api self later
        end
      else Ok self
  end.

(** The script: both requests, then the report. *)
Definition final_response (capacity_replies : list (api_reply capacity_record))
    (usage_replies : list (api_reply usage_record))
    : result (list node_record) :=
  let obj := save_capacity_data init capacity_replies in
  obj <- request_openshift_report_api obj usage_replies ;;
  Ok (node_id_wise_reponse obj).

(** ** Predicates of the properties *)

(** A Percentage Bundle, by its four values. *)
Definition bundle (cpu_usage memory_usage cpu_request memory_request : float)
    : dict float :=
  [("cpu_usage_percentage", cpu_usage);
   ("memory_usage_percentage", memory_usage);
   ("cpu_request_percentage", cpu_request);
   ("memory_request_percentage", memory_request)].

(** The entry that a node record has for a namespace, if any. *)
Definition lookup_entry (self : self_state) (node_id namespace : string)
    : option utilization_entry :=
  match next_or_none (is_node node_id) (node_id_wise_reponse self) with
  | None => None
  | Some node => next_or_none (in_namespace namespace) (utilization_detail node)
  end.

(** Node records are unique by [node_id]. *)
Definition unique_nodes (nodes : list node_record) : Prop :=
  NoDup (map n_node_id nodes).

(** A node record has at most one entry per namespace. *)
Definition unique_namespaces (node : node_record) : Prop :=
  NoDup (map e_namespace (utilization_detail node)).

Definition report_invariant (nodes : list node_record) : Prop :=
  unique_nodes nodes /\ Forall unique_namespaces nodes.

(** The node ids in the order of their first occurrence, starting from
    the ids [seen] so far. *)
Fixpoint first_seen_from (seen ids : list string) : list string :=
  match ids with
  | [] => seen
  | x :: rest =>
      first_seen_from
        (if existsb (String.eqb x) seen then seen else seen ++ [x]) rest
  end.

Definition first_seen (ids : list string) : list string :=
  first_seen_from [] ids.

(** The key of a capacity record and the key of a usage record. *)
Definition capacity_key (c : capacity_record) : string * string * string :=
  (c_node_id c, c_namespace c, c_pod_name c).

Definition usage_key (u : usage_record) : string * string * string :=
  (u_node_id u, u_namespace u, u_pod_name u).

(** The keys of an entry stored in a node record. *)
Definition stored_keys : list string :=
  ["namespace"; "utilization"; "utilization_unit"; "details"].

Definition report_keys (nodes : list node_record) : Prop :=
  Forall (fun node =>
            Forall (fun e => entry_keys e = stored_keys) (utilization_detail node))
         nodes.

(** A bundle whose values are binary64 floats. *)
Definition bundle_bounded (d : dict float) : bool :=
  forallb bounded (values d).


(** A float that is the nearest one to a decimal of four places. *)
Definition rounded_4dp (y : float) : Prop :=
  exists n : Z, y = round_q (sign y) (inject_Z n / pow10 4).

(** [0.0 <= x] *)
Definition nonneg (x : float) : bool := fle (S754_zero false) x.

(** A capacity record whose two capacities are finite and not negative,
    a usage record whose four usages are not negative. *)
Definition capacity_nonneg (c : capacity_record) : bool :=
  is_finite (node_capacity_cpu c) && nonneg (node_capacity_cpu c)
  && is_finite (node_capacity_memory c) && nonneg (node_capacity_memory c).

Definition usage_nonneg (u : usage_record) : bool :=
  nonneg (pod_usage_cpu u) && nonneg (pod_usage_memory u)
  && nonneg (pod_request_cpu u) && nonneg (pod_request_memory u).

(** What a value of a Percentage Bundle is, for a capacity and a usage
    that are not negative: not negative, rounded to four places unless
    it overflowed to infinity, and [0.0] for a capacity of zero. *)
Definition percentage_ok (capacity v : float) : Prop :=
  nonneg v = true
  /\ (is_finite v = true -> rounded_4dp v)
  /\ (is_zero capacity = true -> v = S754_zero false).

End Metrics.

(* ================================================================== *)
(** * The scenarios of the specification *)
(* ================================================================== *)

Module Examples.
Import B64 Py Metrics.
Local Open Scope string_scope.

Definition capacity_n1 : capacity_record :=
  {| c_node_id := "n1"; c_namespace := "ns1"; c_pod_name := "p1";
     node_capacity_cpu := Z2F 4; node_capacity_cpu_unit := "cores";
     node_capacity_memory := Z2F 8; node_capacity_memory_unit := "GB" |}.

(** A usage record of pod [p1] on node [n1], namespace [ns1]. *)
Definition usage_n1 (cpu_unit memory_unit : string)
    (usage_cpu usage_memory request_cpu request_memory : Z) : usage_record :=
  {| u_node_id := "n1"; u_node_name := "node-a"; u_namespace := "ns1";
     u_pod_name := "p1";
     pod_usage_cpu := Z2F usage_cpu; pod_usage_cpu_unit := cpu_unit;
     pod_request_cpu := Z2F request_cpu; pod_request_cpu_unit := cpu_unit;
     pod_usage_memory := Z2F usage_memory; pod_usage_memory_unit := memory_unit;
     pod_request_memory := Z2F request_memory;
     pod_request_memory_unit := memory_unit |}.

(** The usage record with the unit names of the specification, and with
    the unit names that the script tests for. *)
Definition usage_spec_units : usage_record :=
  usage_n1 "milli-units" "binary-mega-units" 2000 4096 1000 2048.

Definition usage_script_units : usage_record :=
  usage_n1 "milicores" "MiB" 2000 4096 1000 2048.

(** A second record of the same node and namespace: 30 percent of cpu. *)
Definition usage_second : usage_record :=
  usage_n1 "milicores" "MiB" 1200 1024 1000 2048.

Definition usage_negative : usage_record :=
  usage_n1 "milicores" "MiB" (-2000) 4096 1000 2048.

Definition capacity_reply : api_reply capacity_record :=
  {| status_code := 200; response := [capacity_n1]; next_token := None |}.

(** [self] once the capacity data is saved. *)
Definition loaded : self_state := save_capacity_data init [capacity_reply].

Definition entry_ns1 (utilization : float) (details : dict float)
    : utilization_entry :=
  {| e_namespace := "ns1"; e_utilization := utilization;
     e_utilization_unit := "percent"; e_node_id := None;
     e_details := details |}.

Definition node_n1 (detail : list utilization_entry) : node_record :=
  {| n_node_id := "n1"; n_node_name := "node-a"; utilization_detail := detail |}.

(** [self] once [usage_script_units] is ingested. *)
Definition after_first : self_state :=
  set_node_id_wise_reponse loaded
    [node_n1 [entry_ns1 (Z2F 50)
                (bundle (Z2F 50) (Z2F 50) (Z2F 25) (Z2F 25))]].

(** The entry that [usage_second] brings. *)
Definition entry_second : utilization_entry :=
  {| e_namespace := "ns1"; e_utilization := Z2F 30;
     e_utilization_unit := "percent"; e_node_id := Some "n1";
     e_details := bundle (Z2F 30) (round_q false (25 # 2)) (Z2F 25) (Z2F 25) |}.

(** Floats to compare the operations of [B64] with those of the Standard
    Library on: zeros, infinities, NaN, integers, fractions, subnormal
    numbers and the largest float, of both signs. *)
Definition samples : list float :=
  [S754_zero false; S754_zero true; S754_infinity false; S754_infinity true;
   S754_nan; max_float; S754_finite true 3 (-1074)]
  ++ map Z2F [3; 100; 1024; -7; 9007199254740993]%Z
  ++ map (round_q false) [1 # 10; -1 # 3; 267575 # 100000]%Q.

End Examples.

(* ================================================================== *)
(** * The rest of the script, and the vocabulary of its properties *)
(* ================================================================== *)

Module Report.
Import B64 Py Metrics.
Local Open Scope string_scope.
Local Open Scope list_scope.

(** [__build_namespace_result]: the one method that writes
    [name_space_wise_response].  Its call in the loop of
    [request_openshift_report_api] is commented out. *)
Definition build_namespace_result (self : self_state)
    (namespace_wise_utilization_dict : utilization_entry) : self_state :=
  {| name_space_wise_response :=
       name_space_wise_response self ++ [namespace_wise_utilization_dict];
     node_id_wise_reponse := node_id_wise_reponse self;
     capacity_map_array := capacity_map_array self |}.


(** A reply that is read and is followed by a further request. *)
Definition page_with_next {R : Type} (reply : api_reply R) : Prop :=
  status_code reply = 200%Z /\ next_token reply <> None.

(** The records of some pages, in order. *)
Definition records_of {R : Type} (pages : list (api_reply R)) : list R :=
  List.concat (map response pages).

(** The (node_id, namespace) of a usage record, and those of the entries
    of a report, in order. *)
Definition record_pair (r : usage_record) : string * string :=
  (u_node_id r, u_namespace r).

Definition report_pairs (nodes : list node_record) : list (string * string) :=
  flat_map
    (fun node =>
       map (fun e => (n_node_id node, e_namespace e)) (utilization_detail node))
    nodes.

(** The name and the entries that a report has for a node id. *)
Definition name_of (nodes : list node_record) (node_id : string)
    : option string :=
  option_map n_node_name (next_or_none (is_node node_id) nodes).

Definition detail_of (nodes : list node_record) (node_id : string)
    : list utilization_entry :=
  match next_or_none (is_node node_id) nodes with
  | Some node => utilization_detail node
  | None => []
  end.

(** The node name that the records give to a node id: the one of the
    first record of that node. *)
Definition first_name (records : list usage_record) (node_id : string)
    : option string :=
  option_map u_node_name
    (find (fun r => String.eqb (u_node_id r) node_id) records).

(** What every stored entry looks like. *)
Definition entry_schema (e : utilization_entry) : Prop :=
  keys (e_details e) = percentage_keys
  /\ e_utilization_unit e = "percent"
  /\ max (values (e_details e)) = Ok (e_utilization e).

Definition report_schema (nodes : list node_record) : Prop :=
  Forall (fun node => Forall entry_schema (utilization_detail node)) nodes.

End Report.

Module ReportExamples.
Import B64 Py Metrics Examples Report.
Local Open Scope string_scope.

(** A first page of usage records with a token for the next one, a last
    page, and a reply that failed. *)
Definition usage_page_first : api_reply usage_record :=
  {| status_code := 200; response := [usage_script_units];
     next_token := Some "page-2" |}.

Definition usage_page_last : api_reply usage_record :=
  {| status_code := 200; response := [usage_second]; next_token := None |}.

Definition usage_reply_failed : api_reply usage_record :=
  {| status_code := 500; response := [usage_negative]; next_token := None |}.

(** A capacity record of another pod with a token for the next page, and
    a second capacity record for the key of [capacity_n1], of twice the
    capacity. *)
Definition capacity_page_first : api_reply capacity_record :=
  {| status_code := 200;
     response := [{| c_node_id := "n2"; c_namespace := "ns1"; c_pod_name := "p9";
                     node_capacity_cpu := Z2F 2; node_capacity_cpu_unit := "cores";
                     node_capacity_memory := Z2F 4;
                     node_capacity_memory_unit := "GB" |}];
     next_token := Some "page-2" |}.

Definition capacity_reply_failed : api_reply capacity_record :=
  {| status_code := 503; response := [capacity_n1]; next_token := None |}.

Definition capacity_n1_again : capacity_record :=
  {| c_node_id := "n1"; c_namespace := "ns1"; c_pod_name := "p1";
     node_capacity_cpu := Z2F 8; node_capacity_cpu_unit := "cores";
     node_capacity_memory := Z2F 16; node_capacity_memory_unit := "GB" |}.

(** A record of another namespace of node [n1], under another node
    name. *)
Definition usage_other_namespace : usage_record :=
  {| u_node_id := "n1"; u_node_name := "node-renamed"; u_namespace := "ns2";
     u_pod_name := "p1";
     pod_usage_cpu := Z2F 400; pod_usage_cpu_unit := "milicores";
     pod_request_cpu := Z2F 200; pod_request_cpu_unit := "milicores";
     pod_usage_memory := Z2F 2; pod_usage_memory_unit := "GB";
     pod_request_memory := Z2F 1; pod_request_memory_unit := "GB" |}.

(** A record whose memory usage is NaN. *)
Definition usage_nan_memory : usage_record :=
  {| u_node_id := "n1"; u_node_name := "node-a"; u_namespace := "ns1";
     u_pod_name := "p1";
     pod_usage_cpu := Z2F 2000; pod_usage_cpu_unit := "milicores";
     pod_request_cpu := Z2F 1000; pod_request_cpu_unit := "milicores";
     pod_usage_memory := S754_nan; pod_usage_memory_unit := "MiB";
     pod_request_memory := Z2F 2048; pod_request_memory_unit := "MiB" |}.

(** [self] with a capacity record for [usage_other_namespace] as well. *)
Definition loaded_two : self_state :=
  save_capacity_data init
    [{| status_code := 200;
        response := [capacity_n1;
                     {| c_node_id := "n1"; c_namespace := "ns2"; c_pod_name := "p1";
                        node_capacity_cpu := Z2F 4; node_capacity_cpu_unit := "cores";
                        node_capacity_memory := Z2F 8;
                        node_capacity_memory_unit := "GB" |}];
        next_token := None |}].

End ReportExamples.

(* ================================================================== *)
(** * Facts about the floats *)
(* ================================================================== *)

Module B64Facts.
Import B64.

(** ** Agreement with the Standard Library

    [fdiv], [fmul] and [fadd] round the exact result; the operations
    [SFdiv], [SFmul] and [SFadd] of the Standard Library, which specify
    its primitive floats, work on significands and exponents.  On every
    pair of the samples the results are the same, bit for bit, and so are
    the comparisons. *)

Lemma arithmetic_agrees_on_samples :
  forallb
    (fun p =>
       same (fdiv (fst p) (snd p)) (SFdiv prec emax (fst p) (snd p))
       && same (fmul (fst p) (snd p)) (SFmul prec emax (fst p) (snd p))
       && same (fadd (fst p) (snd p)) (SFadd prec emax (fst p) (snd p)))
    (list_prod Examples.samples Examples.samples)
  = true.
Proof. vm_compute. reflexivity. Qed.

Lemma comparisons_agree_on_samples :
  forallb
    (fun p =>
       Bool.eqb (fle (fst p) (snd p)) (SFleb (fst p) (snd p))
       && Bool.eqb (flt (fst p) (snd p)) (SFltb (fst p) (snd p))
       && Bool.eqb (feq (fst p) (snd p)) (SFeqb (fst p) (snd p)))
    (list_prod Examples.samples Examples.samples)
  = true.
Proof. vm_compute. reflexivity. Qed.

(** [round(x, 4)] on decimals that are no binary fractions: 0.00005 is
    above the tie and goes up, 0.00015 is below it and goes down,
    2.67575 goes down, 0.12345 goes up, and [-0.00001] gives [-0.0]. *)
Lemma float_round_samples :
  float_round (round_q false (5 # 100000)) 4 = Some (round_q false (1 # 10000))
  /\ float_round (round_q false (15 # 100000)) 4 = Some (round_q false (1 # 10000))
  /\ float_round (round_q false (267575 # 100000)) 4
     = Some (round_q false (26757 # 10000))
  /\ float_round (round_q false (12345 # 100000)) 4
     = Some (round_q false (1235 # 10000))
  /\ float_round (round_q false (-1 # 100000)) 4 = Some (S754_zero true)
  /\ float_round max_float 4 = Some max_float.
Proof. repeat split; vm_compute; reflexivity. Qed.

(** ** Powers of two *)

Lemma pow2_pos (e : Z) : (0 < pow2 e)%Q.
Proof. unfold pow2. apply Qpower_0_lt. reflexivity. Qed.

Lemma pow2_add (a b : Z) : (pow2 (a + b) == pow2 a * pow2 b)%Q.
Proof. unfold pow2. apply Qpower_plus. discriminate. Qed.

Lemma pow2_le (a b : Z) : a <= b -> (pow2 a <= pow2 b)%Q.
Proof. intros H. unfold pow2. apply Qpower_le_compat_l; [exact H | discriminate]. Qed.

Lemma pow2_lt (a b : Z) : a < b -> (pow2 a < pow2 b)%Q.
Proof. intros H. unfold pow2. apply Qpower_lt_compat_l; [exact H | reflexivity]. Qed.

Lemma pow2_inject (n : Z) : 0 <= n -> (pow2 n == inject_Z (2 ^ n))%Q.
Proof. intros H. unfold pow2. symmetry. apply (Zpower_Qpower 2 n H). Qed.

Lemma pow2_cancel (e : Z) : (pow2 e * pow2 (- e) == 1)%Q.
Proof. rewrite <- pow2_add. replace (e + - e) with 0 by lia. reflexivity. Qed.

(** ** Round half to even *)

Lemma rne_bounds (q : Q) : Qfloor q <= rne q <= Qfloor q + 1.
Proof.
  unfold rne. destruct (_ ?= _)%Q; [destruct (Z.even _) | |]; lia.
Qed.

Lemma rne_inject_Z (z : Z) : rne (inject_Z z) = z.
Proof.
  unfold rne. rewrite Qfloor_Z.
  destruct (Qcompare_spec (inject_Z z - inject_Z z) (1 # 2)) as [H|H|H];
    try reflexivity; exfalso; lra.
Qed.

Lemma rne_mono (p q : Q) : (p <= q)%Q -> rne p <= rne q.
Proof.
  intros Hpq.
  pose proof (Qfloor_resp_le _ _ Hpq) as Hf.
  pose proof (rne_bounds p) as Bp. pose proof (rne_bounds q) as Bq.
  destruct (Z.eq_dec (Qfloor p) (Qfloor q)) as [E|NE]; [|lia].
  unfold rne in *. rewrite E in *.
  destruct (Qcompare_spec (p - inject_Z (Qfloor q)) (1 # 2)) as [H1|H1|H1];
  destruct (Qcompare_spec (q - inject_Z (Qfloor q)) (1 # 2)) as [H2|H2|H2];
    try (destruct (Z.even (Qfloor q))); try lia; exfalso; lra.
Qed.

Lemma rne_nonneg (q : Q) : (0 <= q)%Q -> 0 <= rne q.
Proof. intros H. rewrite <- (rne_inject_Z 0). apply rne_mono. exact H. Qed.


(** ** The binary logarithm *)

Lemma Qmake_mult_den (n : Z) (d : positive) :
  ((n # d) * inject_Z (Zpos d) == inject_Z n)%Q.
Proof. unfold Qeq, Qmult, inject_Z. simpl. lia. Qed.

Lemma log2_bounds_Q (n : Z) :
  0 < n -> (pow2 (Z.log2 n) <= inject_Z n < pow2 (Z.log2 n + 1))%Q.
Proof.
  intros Hn. pose proof (Z.log2_spec n Hn) as [L U].
  pose proof (Z.log2_nonneg n) as Hl.
  rewrite !pow2_inject by lia. rewrite <- Zle_Qle, <- Zlt_Qlt.
  replace (Z.log2 n + 1) with (Z.succ (Z.log2 n)) by lia. split; assumption.
Qed.

Lemma ilog2_spec (q : Q) :
  (0 < q)%Q -> (pow2 (ilog2 q) <= q < pow2 (ilog2 q + 1))%Q.
Proof.
  intros Hq. destruct q as [n d].
  assert (Hn : 0 < n) by (unfold Qlt in Hq; simpl in Hq; lia).
  pose proof (Qmake_mult_den n d) as Hnd.
  pose proof (log2_bounds_Q n Hn) as [Hn1 Hn2].
  pose proof (log2_bounds_Q (Zpos d) (Pos2Z.is_pos d)) as [Hd1 Hd2].
  unfold ilog2. cbn [Qnum Qden].
  set (a := Z.log2 n) in *. set (b := Z.log2 (Zpos d)) in *.
  pose proof (pow2_pos (a - b)) as P0.
  pose proof (pow2_pos (a - b - 1)) as P1.
  pose proof (pow2_pos (a - b + 1)) as P2.
  pose proof (pow2_pos b) as Pb. pose proof (pow2_pos (b + 1)) as Pb1.
  assert (E1 : (pow2 (a - b + 1) * pow2 b == pow2 (a + 1))%Q)
    by (rewrite <- pow2_add; replace (a - b + 1 + b) with (a + 1) by lia; reflexivity).
  assert (E2 : (pow2 (a - b - 1) * pow2 (b + 1) == pow2 a)%Q)
    by (rewrite <- pow2_add; replace (a - b - 1 + (b + 1)) with a by lia; reflexivity).
  destruct (Qle_bool (pow2 (a - b)) (n # d)) eqn:T.
  - apply Qle_bool_iff in T. split; [exact T|].
    apply Qnot_le_lt. intros C. nra.
  - assert (T' : (n # d < pow2 (a - b))%Q).
    { apply Qnot_le_lt. intros C. apply Qle_bool_iff in C. congruence. }
    replace (a - b - 1 + 1) with (a - b) by lia. split; [|exact T'].
    apply Qnot_lt_le. intros C. nra.
Qed.

Lemma ilog2_mono (p q : Q) : (0 < p)%Q -> (p <= q)%Q -> ilog2 p <= ilog2 q.
Proof.
  intros Hp Hpq.
  assert (Hq : (0 < q)%Q) by lra.
  pose proof (ilog2_spec p Hp) as [Lp _].
  pose proof (ilog2_spec q Hq) as [_ Uq].
  destruct (Z_lt_le_dec (ilog2 q) (ilog2 p)) as [C|C]; [|exact C].
  exfalso. pose proof (pow2_le (ilog2 q + 1) (ilog2 p) ltac:(lia)). lra.
Qed.

(** ** Rounding of a positive rational *)

Lemma fexp_mono (a b : Z) : a <= b -> fexp a <= fexp b.
Proof. unfold fexp. lia. Qed.

Lemma scale_lt (q : Q) (e k : Z) :
  (q < pow2 (e + k))%Q -> (q * pow2 (- e) < pow2 k)%Q.
Proof.
  intros H. pose proof (pow2_pos (- e)) as P.
  assert (E : (pow2 (e + k) * pow2 (- e) == pow2 k)%Q)
    by (rewrite <- pow2_add; replace (e + k + - e) with k by lia; reflexivity).
  rewrite <- E. apply Qmult_lt_compat_r; assumption.
Qed.

Lemma scale_le (q : Q) (e k : Z) :
  (pow2 (e + k) <= q)%Q -> (pow2 k <= q * pow2 (- e))%Q.
Proof.
  intros H. pose proof (pow2_pos (- e)) as P.
  assert (E : (pow2 (e + k) * pow2 (- e) == pow2 k)%Q)
    by (rewrite <- pow2_add; replace (e + k + - e) with k by lia; reflexivity).
  rewrite <- E. apply Qmult_le_compat_r; [assumption | lra].
Qed.

Lemma round_pos_nonneg (q : Q) : (0 < q)%Q -> 0 <= fst (round_pos q).
Proof.
  intros Hq. unfold round_pos. cbn [fst]. apply rne_nonneg.
  pose proof (pow2_pos (- fexp (ilog2 q))). nra.
Qed.

Lemma round_pos_upper (q : Q) : (0 < q)%Q -> fst (round_pos q) <= 2 ^ prec.
Proof.
  intros Hq. unfold round_pos. cbn [fst].
  pose proof (ilog2_spec q Hq) as [_ U].
  set (e := fexp (ilog2 q)).
  assert (He : ilog2 q + 1 <= e + prec) by (unfold e, fexp, prec; lia).
  rewrite <- (rne_inject_Z (2 ^ prec)). apply rne_mono.
  rewrite <- pow2_inject by (unfold prec; lia).
  apply Qlt_le_weak, scale_lt.
  eapply Qlt_le_trans; [exact U | apply pow2_le; exact He].
Qed.

Lemma round_pos_lower (q : Q) :
  (0 < q)%Q -> emin < snd (round_pos q) -> 2 ^ (prec - 1) <= fst (round_pos q).
Proof.
  intros Hq. unfold round_pos. cbn [fst snd]. intros He.
  pose proof (ilog2_spec q Hq) as [L _].
  set (e := fexp (ilog2 q)) in *.
  assert (E : ilog2 q = e + (prec - 1)) by (unfold e, fexp, prec, emin in *; lia).
  rewrite <- (rne_inject_Z (2 ^ (prec - 1))). apply rne_mono.
  rewrite <- pow2_inject by (unfold prec; lia).
  apply scale_le. rewrite <- E. exact L.
Qed.

Lemma round_pos_mono (p q : Q) :
  (0 < p)%Q -> (p <= q)%Q ->
  (mag_value (round_pos p) <= mag_value (round_pos q))%Q.
Proof.
  intros Hp Hpq. assert (Hq : (0 < q)%Q) by lra.
  pose proof (fexp_mono _ _ (ilog2_mono p q Hp Hpq)) as He.
  pose proof (round_pos_upper p Hp) as Up.
  pose proof (round_pos_lower q Hq) as Lq.
  unfold mag_value. unfold round_pos in *. cbn [fst snd] in *.
  set (e1 := fexp (ilog2 p)) in *. set (e2 := fexp (ilog2 q)) in *.
  destruct (Z.eq_dec e1 e2) as [E|NE].
  - rewrite E. apply Qmult_le_compat_r; [|apply Qlt_le_weak, pow2_pos].
    rewrite <- Zle_Qle. apply rne_mono.
    apply Qmult_le_compat_r; [exact Hpq | apply Qlt_le_weak, pow2_pos].
  - assert (Hlt : e1 < e2) by lia.
    assert (Hemin : emin < e2) by (unfold e1, fexp in *; lia).
    specialize (Lq Hemin).
    rewrite Zle_Qle in Up. rewrite Zle_Qle in Lq.
    rewrite <- pow2_inject in Up by (unfold prec; lia).
    rewrite <- pow2_inject in Lq by (unfold prec; lia).
    pose proof (pow2_pos e1) as P1. pose proof (pow2_pos e2) as P2.
    pose proof (pow2_add prec e1) as A1.
    pose proof (pow2_add (prec - 1) e2) as A2.
    pose proof (pow2_le (prec + e1) (prec - 1 + e2) ltac:(lia)) as M.
    set (m1 := inject_Z (rne (p * pow2 (- e1)))) in *.
    set (m2 := inject_Z (rne (q * pow2 (- e2)))) in *.
    apply Qle_trans with (pow2 (prec + e1)); [rewrite A1; nra|].
    apply Qle_trans with (pow2 (prec - 1 + e2)); [exact M | rewrite A2; nra].
Qed.


(** ** Packing *)

Lemma mag_value_nonneg (me : Z * Z) : 0 <= fst me -> (0 <= mag_value me)%Q.
Proof.
  intros H. unfold mag_value. rewrite Zle_Qle in H.
  pose proof (pow2_pos (snd me)). change (inject_Z 0) with 0%Q in H. nra.
Qed.

Lemma pack_spec (s : bool) (me : Z * Z) :
  0 <= fst me ->
  ((pow2 emax <= mag_value me)%Q /\ pack s me = S754_infinity s)
  \/ ((mag_value me < pow2 emax)%Q
      /\ is_finite (pack s me) = true
      /\ (F2Q (pack s me) == if s then - mag_value me else mag_value me)%Q).
Proof.
  intros Hm. unfold pack.
  destruct (Qle_bool (pow2 emax) (mag_value me)) eqn:O.
  - left. apply Qle_bool_iff in O. split; [exact O | reflexivity].
  - right. split.
    { apply Qnot_le_lt. intros C. apply Qle_bool_iff in C. congruence. }
    destruct me as [m e]. cbn [fst] in Hm. unfold mag_value. cbn [fst snd].
    destruct (m =? 2 ^ prec) eqn:E.
    + apply Z.eqb_eq in E. subst m.
      change (2 ^ (prec - 1)) with (Zpos 4503599627370496).
      split; [reflexivity|]. cbn [F2Q]. unfold mag.
      assert (A : (inject_Z (Zpos 4503599627370496) * pow2 (e + 1)
                   == inject_Z (2 ^ prec) * pow2 e)%Q).
      { rewrite Z.add_comm, pow2_add.
        change (pow2 1) with 2%Q.
        change (inject_Z (2 ^ prec)) with (inject_Z (Zpos 4503599627370496) * 2)%Q.
        ring. }
      destruct s; rewrite A; reflexivity.
    + destruct m as [|p|p]; [| |lia].
      * split; [reflexivity|]. cbn [F2Q].
        change (inject_Z 0) with 0%Q. destruct s; ring.
      * split; [reflexivity|]. cbn [F2Q]. unfold mag. destruct s; reflexivity.
Qed.

(** ** The order *)

Lemma fle_finite (x y : float) :
  is_finite x = true -> is_finite y = true ->
  fle x y = Qle_bool (F2Q x) (F2Q y).
Proof. destruct x, y; intros; try discriminate; reflexivity. Qed.

Lemma fle_pinf (x : float) : is_nan x = false -> fle x (S754_infinity false) = true.
Proof. destruct x as [s|[|]| |s m e]; intros; try discriminate; reflexivity. Qed.

Lemma fle_ninf (y : float) : is_nan y = false -> fle (S754_infinity true) y = true.
Proof. destruct y; intros; try discriminate; reflexivity. Qed.

Lemma fle_not_nan (x y : float) :
  fle x y = true -> is_nan x = false /\ is_nan y = false.
Proof.
  destruct x as [s|[|]| |s m e], y as [t|[|]| |t n f]; intros H;
    try discriminate; split; reflexivity.
Qed.

Lemma finite_not_nan (x : float) : is_finite x = true -> is_nan x = false.
Proof. destruct x; intros; try discriminate; reflexivity. Qed.

Lemma fle_trans (x y z : float) :
  fle x y = true -> fle y z = true -> fle x z = true.
Proof.
  destruct x as [sx|[|]| |sx mx ex], y as [sy|[|]| |sy my ey],
           z as [sz|[|]| |sz mz ez];
    unfold fle; intros H1 H2; try reflexivity;
    try discriminate H1; try discriminate H2;
    apply Qle_bool_iff; apply Qle_bool_iff in H1; apply Qle_bool_iff in H2;
    exact (Qle_trans _ _ _ H1 H2).
Qed.


(** ** Rounding is monotone *)

Lemma round_q_not_nan (zs : bool) (q : Q) : is_nan (round_q zs q) = false.
Proof.
  unfold round_q.
  destruct (Qcompare_spec q 0) as [H|H|H]; [reflexivity| |].
  - destruct (pack_spec true (round_pos (- q))) as [[_ E]|[_ [F _]]];
      [apply round_pos_nonneg; lra | rewrite E; reflexivity
      | apply finite_not_nan, F].
  - destruct (pack_spec false (round_pos q)) as [[_ E]|[_ [F _]]];
      [apply round_pos_nonneg; lra | rewrite E; reflexivity
      | apply finite_not_nan, F].
Qed.

Lemma pack_false_mono (a b : Z * Z) :
  0 <= fst a -> 0 <= fst b -> (mag_value a <= mag_value b)%Q ->
  fle (pack false a) (pack false b) = true.
Proof.
  intros Ha Hb H.
  destruct (pack_spec false a Ha) as [[Oa Ea]|[Na [Fa Va]]];
  destruct (pack_spec false b Hb) as [[Ob Eb]|[Nb [Fb Vb]]].
  - rewrite Ea, Eb. reflexivity.
  - exfalso. lra.
  - rewrite Eb. apply fle_pinf, finite_not_nan, Fa.
  - rewrite fle_finite by assumption. apply Qle_bool_iff. rewrite Va, Vb. exact H.
Qed.

Lemma pack_true_mono (a b : Z * Z) :
  0 <= fst a -> 0 <= fst b -> (mag_value a <= mag_value b)%Q ->
  fle (pack true b) (pack true a) = true.
Proof.
  intros Ha Hb H.
  destruct (pack_spec true a Ha) as [[Oa Ea]|[Na [Fa Va]]];
  destruct (pack_spec true b Hb) as [[Ob Eb]|[Nb [Fb Vb]]].
  - rewrite Ea, Eb. reflexivity.
  - exfalso. lra.
  - rewrite Eb. apply fle_ninf, finite_not_nan, Fa.
  - rewrite fle_finite by assumption. apply Qle_bool_iff. rewrite Va, Vb. lra.
Qed.

Lemma round_q_nonneg (zs s : bool) (q : Q) :
  (0 <= q)%Q -> fle (S754_zero s) (round_q zs q) = true.
Proof.
  intros Hq. unfold round_q.
  destruct (Qcompare_spec q 0) as [H|H|H]; [| exfalso; lra |].
  - unfold fle. apply Qle_bool_iff. apply Qle_refl.
  - pose proof (round_pos_nonneg q H) as Hm.
    destruct (pack_spec false (round_pos q) Hm) as [[_ E]|[_ [F V]]].
    + rewrite E. reflexivity.
    + rewrite fle_finite by (assumption || reflexivity).
      apply Qle_bool_iff. rewrite V. cbn [F2Q]. apply mag_value_nonneg, Hm.
Qed.

Lemma round_q_nonpos (zs s : bool) (q : Q) :
  (q <= 0)%Q -> fle (round_q zs q) (S754_zero s) = true.
Proof.
  intros Hq. unfold round_q.
  destruct (Qcompare_spec q 0) as [H|H|H]; [| | exfalso; lra].
  - unfold fle. apply Qle_bool_iff. apply Qle_refl.
  - assert (H' : (0 < - q)%Q) by lra.
    pose proof (round_pos_nonneg (- q) H') as Hm.
    destruct (pack_spec true (round_pos (- q)) Hm) as [[_ E]|[_ [F V]]].
    + rewrite E. reflexivity.
    + rewrite fle_finite by (assumption || reflexivity).
      apply Qle_bool_iff. rewrite V. cbn [F2Q].
      pose proof (mag_value_nonneg _ Hm). lra.
Qed.

Theorem round_q_mono (s1 s2 : bool) (p q : Q) :
  (p <= q)%Q -> fle (round_q s1 p) (round_q s2 q) = true.
Proof.
  intros Hpq.
  destruct (Qlt_le_dec 0 p) as [Hp|Hp].
  - assert (Hq : (0 < q)%Q) by lra.
    unfold round_q.
    destruct (Qcompare_spec p 0) as [A|A|A]; try (exfalso; lra).
    destruct (Qcompare_spec q 0) as [B|B|B]; try (exfalso; lra).
    apply pack_false_mono; try (apply round_pos_nonneg; assumption).
    apply round_pos_mono; assumption.
  - destruct (Qlt_le_dec q 0) as [Hq|Hq].
    + unfold round_q.
      destruct (Qcompare_spec p 0) as [A|A|A]; try (exfalso; lra).
      destruct (Qcompare_spec q 0) as [B|B|B]; try (exfalso; lra).
      apply pack_true_mono; try (apply round_pos_nonneg; lra).
      apply round_pos_mono; lra.
    + apply fle_trans with (S754_zero false);
        [apply round_q_nonpos | apply round_q_nonneg]; assumption.
Qed.


(** ** Finite results stay below [max_float] *)

Lemma fexp_emin (lg : Z) : emin <= fexp lg.
Proof. unfold fexp. lia. Qed.

Lemma round_pos_bounded (q : Q) :
  (0 < q)%Q -> (mag_value (round_pos q) < pow2 emax)%Q ->
  (mag_value (round_pos q) <= F2Q max_float)%Q.
Proof.
  intros Hq.
  pose proof (round_pos_nonneg q Hq) as N.
  pose proof (round_pos_upper q Hq) as U.
  pose proof (round_pos_lower q Hq) as L.
  destruct (round_pos q) as [m e]. unfold mag_value. cbn [fst snd] in *.
  intros B. cbn [F2Q max_float]. unfold mag.
  pose proof (pow2_pos e) as Pe.
  destruct (Z_le_gt_dec e 971) as [He|He].
  - pose proof (pow2_le e 971 He) as M.
    destruct (Z.eq_dec m (2 ^ prec)) as [Em|Nm].
    + subst m.
      assert (He' : e < 971).
      { destruct (Z.eq_dec e 971) as [E|E]; [|lia]. subst e. exfalso.
        revert B. apply Qle_not_lt. vm_compute. discriminate. }
      pose proof (pow2_le e 970 ltac:(lia)) as M'.
      apply Qle_trans with (inject_Z (2 ^ prec) * pow2 970)%Q.
      * apply Qmult_le_l; [reflexivity | exact M'].
      * vm_compute. discriminate.
    + assert (Hm : m <= 9007199254740991) by (change (2 ^ prec) with 9007199254740992 in *; lia).
      rewrite Zle_Qle in Hm. rewrite Zle_Qle in N.
      change (inject_Z 0) with 0%Q in N.
      pose proof (pow2_pos 971). nra.
  - exfalso. specialize (L ltac:(unfold emin; lia)).
    pose proof (pow2_le 972 e ltac:(lia)) as M.
    rewrite Zle_Qle in L.
    assert (T : (pow2 emax == inject_Z (2 ^ (prec - 1)) * pow2 972)%Q)
      by (vm_compute; reflexivity).
    rewrite T in B.
    assert (P : (0 < inject_Z (2 ^ (prec - 1)))%Q) by reflexivity.
    nra.
Qed.

Lemma round_q_bounded (zs : bool) (q : Q) :
  is_finite (round_q zs q) = true ->
  (- F2Q max_float <= F2Q (round_q zs q) <= F2Q max_float)%Q.
Proof.
  assert (M : (0 < F2Q max_float)%Q) by reflexivity.
  unfold round_q. destruct (Qcompare_spec q 0) as [H|H|H].
  - intros _. cbn [F2Q]. lra.
  - assert (H' : (0 < - q)%Q) by lra.
    pose proof (round_pos_nonneg _ H') as Hm.
    pose proof (round_pos_bounded _ H') as B.
    pose proof (mag_value_nonneg _ Hm).
    destruct (pack_spec true _ Hm) as [[_ E]|[Lt [_ V]]].
    + rewrite E. discriminate.
    + intros _. rewrite V. specialize (B Lt). lra.
  - pose proof (round_pos_nonneg _ H) as Hm.
    pose proof (round_pos_bounded _ H) as B.
    pose proof (mag_value_nonneg _ Hm).
    destruct (pack_spec false _ Hm) as [[_ E]|[Lt [_ V]]].
    + rewrite E. discriminate.
    + intros _. rewrite V. specialize (B Lt). lra.
Qed.


(** ** Division and multiplication by a positive finite float *)

Lemma mag_pos (m : positive) (e : Z) : (0 < mag m e)%Q.
Proof.
  unfold mag. pose proof (pow2_pos e).
  assert (0 < inject_Z (Zpos m))%Q by reflexivity. nra.
Qed.

Lemma fle_finite_Qle (x y : float) :
  is_finite x = true -> is_finite y = true ->
  fle x y = true -> (F2Q x <= F2Q y)%Q.
Proof.
  intros Fx Fy H. rewrite fle_finite in H by assumption.
  apply Qle_bool_iff, H.
Qed.

Lemma fdiv_finite (x : float) (m : positive) (e : Z) :
  is_finite x = true ->
  fdiv x (S754_finite false m e) = round_q (sign x) (F2Q x / mag m e).
Proof.
  destruct x as [s|s| |s n f]; intros; try discriminate;
    unfold fdiv; cbn [sign F2Q]; rewrite xorb_false_r; reflexivity.
Qed.

Lemma fmul_finite (x : float) (m : positive) (e : Z) :
  is_finite x = true ->
  fmul x (S754_finite false m e) = round_q (sign x) (F2Q x * mag m e).
Proof.
  destruct x as [s|s| |s n f]; intros; try discriminate;
    unfold fmul; cbn [sign F2Q]; rewrite xorb_false_r; reflexivity.
Qed.

Lemma fdiv_inf (s : bool) (m : positive) (e : Z) :
  fdiv (S754_infinity s) (S754_finite false m e) = S754_infinity s.
Proof. unfold fdiv. cbn [sign]. rewrite xorb_false_r. reflexivity. Qed.

Lemma fmul_inf (s : bool) (m : positive) (e : Z) :
  fmul (S754_infinity s) (S754_finite false m e) = S754_infinity s.
Proof. unfold fmul. cbn [sign]. rewrite xorb_false_r. reflexivity. Qed.

(** A monotone operation on the rationals, rounded, and sending each
    infinity to itself, is monotone on the floats. *)
Lemma lift_mono (op : float -> float) (g : Q -> Q) :
  (forall x, is_finite x = true -> op x = round_q (sign x) (g (F2Q x))) ->
  (forall s, op (S754_infinity s) = S754_infinity s) ->
  (forall p q, (p <= q)%Q -> (g p <= g q)%Q) ->
  forall x y, fle x y = true -> fle (op x) (op y) = true.
Proof.
  intros Hfin Hinf Hg x y H.
  destruct (fle_not_nan _ _ H) as [Nx Ny].
  destruct x as [sx|[|]| |sx mx ex]; try discriminate Nx.
  - (* zero *)
    destruct y as [sy|[|]| |sy my ey]; try discriminate Ny; try discriminate H.
    + rewrite !Hfin by reflexivity. apply round_q_mono, Hg.
      apply fle_finite_Qle in H; [exact H | reflexivity | reflexivity].
    + rewrite (Hinf false). apply fle_pinf.
      rewrite Hfin by reflexivity. apply round_q_not_nan.
    + rewrite !Hfin by reflexivity. apply round_q_mono, Hg.
      apply fle_finite_Qle in H; [exact H | reflexivity | reflexivity].
  - (* -inf *)
    rewrite (Hinf true). apply fle_ninf.
    destruct y as [sy|sy| |sy my ey]; try discriminate Ny.
    + rewrite Hfin by reflexivity. apply round_q_not_nan.
    + rewrite Hinf. reflexivity.
    + rewrite Hfin by reflexivity. apply round_q_not_nan.
  - (* +inf *)
    destruct y as [sy|[|]| |sy my ey]; try discriminate Ny; try discriminate H.
    rewrite (Hinf false). reflexivity.
  - (* finite *)
    destruct y as [sy|[|]| |sy my ey]; try discriminate Ny; try discriminate H.
    + rewrite !Hfin by reflexivity. apply round_q_mono, Hg.
      apply fle_finite_Qle in H; [exact H | reflexivity | reflexivity].
    + rewrite (Hinf false). apply fle_pinf.
      rewrite Hfin by reflexivity. apply round_q_not_nan.
    + rewrite !Hfin by reflexivity. apply round_q_mono, Hg.
      apply fle_finite_Qle in H; [exact H | reflexivity | reflexivity].
Qed.

Lemma fdiv_mono (m : positive) (e : Z) (x y : float) :
  fle x y = true ->
  fle (fdiv x (S754_finite false m e)) (fdiv y (S754_finite false m e)) = true.
Proof.
  apply (lift_mono (fun x => fdiv x (S754_finite false m e))
                   (fun q => q / mag m e)%Q).
  - intros. apply fdiv_finite. assumption.
  - intros. apply fdiv_inf.
  - intros p q H. pose proof (mag_pos m e) as P.
    unfold Qdiv. apply Qmult_le_compat_r; [exact H|].
    apply Qlt_le_weak, Qinv_lt_0_compat, P.
Qed.

Lemma fmul_mono (m : positive) (e : Z) (x y : float) :
  fle x y = true ->
  fle (fmul x (S754_finite false m e)) (fmul y (S754_finite false m e)) = true.
Proof.
  apply (lift_mono (fun x => fmul x (S754_finite false m e))
                   (fun q => q * mag m e)%Q).
  - intros. apply fmul_finite. assumption.
  - intros. apply fmul_inf.
  - intros p q H. pose proof (mag_pos m e) as P.
    apply Qmult_le_compat_r; [exact H | apply Qlt_le_weak, P].
Qed.


(** ** [round(x, 4)] *)

Lemma pow10_4_pos : (0 < pow10 4)%Q.
Proof. reflexivity. Qed.

(** The decimal that [round(x, 4)] converts back to a float. *)
Lemma decimal_mono (p q : Q) :
  (p <= q)%Q ->
  (inject_Z (rne (p * pow10 4)) / pow10 4 <= inject_Z (rne (q * pow10 4)) / pow10 4)%Q.
Proof.
  intros H. pose proof pow10_4_pos as P.
  unfold Qdiv. apply Qmult_le_compat_r.
  - rewrite <- Zle_Qle. apply rne_mono.
    apply Qmult_le_compat_r; [exact H | apply Qlt_le_weak, P].
  - apply Qlt_le_weak, Qinv_lt_0_compat, P.
Qed.

Lemma float_round_finite (x : float) :
  is_finite x = true -> float_round x 4 = double_round x 4.
Proof. intros H. unfold float_round. rewrite H. reflexivity. Qed.

Lemma float_round_not_finite (x : float) (nd : Z) :
  is_finite x = false -> float_round x nd = Some x.
Proof. intros H. unfold float_round. rewrite H. reflexivity. Qed.

Lemma double_round_Some (x r : float) (nd : Z) :
  double_round x nd = Some r ->
  r = round_q (sign x) (inject_Z (rne (F2Q x * pow10 nd)) / pow10 nd).
Proof.
  unfold double_round. destruct (is_infinite _); intros H; inversion H; reflexivity.
Qed.

Lemma bounded_spec (x : float) :
  bounded x = true <-> (- F2Q max_float <= F2Q x <= F2Q max_float)%Q.
Proof.
  unfold bounded. rewrite andb_true_iff, !Qle_bool_iff. reflexivity.
Qed.

Lemma round_q_is_bounded (zs : bool) (q : Q) : bounded (round_q zs q) = true.
Proof.
  destruct (is_finite (round_q zs q)) eqn:F.
  - apply bounded_spec, round_q_bounded, F.
  - destruct (round_q zs q); try discriminate F; reflexivity.
Qed.

Lemma double_round_total (x : float) :
  bounded x = true ->
  exists r, double_round x 4 = Some r /\ is_infinite r = false.
Proof.
  intros B. apply bounded_spec in B. destruct B as [Lo Hi].
  unfold double_round.
  set (d := (inject_Z (rne (F2Q x * pow10 4)) / pow10 4)%Q).
  assert (Hhi : fle (round_q (sign x) d) max_float = true).
  { replace max_float with (round_q false (F2Q max_float))
      by (vm_compute; reflexivity).
    apply round_q_mono.
    apply Qle_trans with (inject_Z (rne (F2Q max_float * pow10 4)) / pow10 4)%Q.
    - apply decimal_mono, Hi.
    - vm_compute. discriminate. }
  assert (Hlo : fle (S754_finite true 9007199254740991 971) (round_q (sign x) d) = true).
  { replace (S754_finite true 9007199254740991 971)
      with (round_q false (- F2Q max_float)) by (vm_compute; reflexivity).
    apply round_q_mono.
    apply Qle_trans with (inject_Z (rne (- F2Q max_float * pow10 4)) / pow10 4)%Q.
    - vm_compute. discriminate.
    - apply decimal_mono, Lo. }
  destruct (round_q (sign x) d) as [s|[|]| |s m e] eqn:E;
    try discriminate Hhi; try discriminate Hlo; cbn [is_infinite];
    eexists; split; reflexivity.
Qed.

Lemma float_round_total (x : float) :
  bounded x = true -> exists r, float_round x 4 = Some r.
Proof.
  intros B. destruct (is_finite x) eqn:F.
  - rewrite float_round_finite by exact F.
    destruct (double_round_total x B) as [r [E _]]. exists r. exact E.
  - exists x. apply float_round_not_finite, F.
Qed.

(** [round(x, 4)] as a total function, for the monotonicity proof. *)
Lemma float_round_mono (x y rx ry : float) :
  fle x y = true ->
  float_round x 4 = Some rx -> float_round y 4 = Some ry ->
  fle rx ry = true.
Proof.
  intros H Hx Hy.
  pose (g := fun q : Q => (inject_Z (rne (q * pow10 4)) / pow10 4)%Q).
  pose (op := fun x : float =>
                if is_finite x then round_q (sign x) (g (F2Q x)) else x).
  assert (Ex : forall x r, float_round x 4 = Some r -> r = op x).
  { intros z r Hz. unfold op. destruct (is_finite z) eqn:F.
    - rewrite float_round_finite in Hz by exact F.
      apply double_round_Some in Hz. exact Hz.
    - rewrite float_round_not_finite in Hz by exact F. congruence. }
  rewrite (Ex _ _ Hx), (Ex _ _ Hy).
  apply (lift_mono op g); try exact H.
  - intros z F. unfold op. rewrite F. reflexivity.
  - intros s. reflexivity.
  - intros p q Hpq. apply decimal_mono, Hpq.
Qed.

(** ** Addition commutes *)

Lemma Qplus_comm_eq (a b : Q) : (a + b)%Q = (b + a)%Q.
Proof.
  destruct a as [n d], b as [n' d']. unfold Qplus. cbn [Qnum Qden].
  f_equal; [ring | apply Pos.mul_comm].
Qed.

Lemma fadd_comm (x y : float) : fadd x y = fadd y x.
Proof.
  destruct x as [sx|sx| |sx mx ex], y as [sy|sy| |sy my ey];
    try reflexivity; unfold fadd;
    try (destruct sx, sy; reflexivity).
  f_equal. apply Qplus_comm_eq.
Qed.

Lemma fadd_bounded (x y : float) :
  bounded x = true -> bounded y = true -> bounded (fadd x y) = true.
Proof.
  intros Bx By.
  destruct x as [sx|sx| |sx mx ex], y as [sy|sy| |sy my ey];
    unfold fadd; try reflexivity; try assumption;
    try (destruct (Bool.eqb _ _); reflexivity).
  apply round_q_is_bounded.
Qed.

Lemma fmul_bounded (x y : float) : bounded (fmul x y) = true.
Proof.
  destruct x as [sx|sx| |sx mx ex], y as [sy|sy| |sy my ey];
    unfold fmul; try reflexivity; apply round_q_is_bounded.
Qed.

Lemma fdiv_bounded (x y : float) : bounded (fdiv x y) = true.
Proof.
  destruct x as [sx|sx| |sx mx ex], y as [sy|sy| |sy my ey];
    unfold fdiv; try reflexivity; apply round_q_is_bounded.
Qed.

End B64Facts.

(* ================================================================== *)
(** * Facts about the Python layer *)
(* ================================================================== *)

Module PyFacts.
Import B64 B64Facts Py.

Lemma same_eq (x y : float) : same x y = true <-> x = y.
Proof.
  split.
  - destruct x as [a|a| |a m e], y as [b|b| |b n f]; cbn [same]; intros H;
      try discriminate H; try reflexivity.
    + apply eqb_prop in H. congruence.
    + apply eqb_prop in H. congruence.
    + apply andb_true_iff in H. destruct H as [H H3].
      apply andb_true_iff in H. destruct H as [H1 H2].
      apply eqb_prop in H1. apply Pos.eqb_eq in H2. apply Z.eqb_eq in H3.
      congruence.
  - intros <-. destruct x as [a|a| |a m e]; cbn [same];
      rewrite ?eqb_reflx, ?Pos.eqb_refl, ?Z.eqb_refl; reflexivity.
Qed.

Lemma dict_same_eq (d1 d2 : dict float) : dict_same d1 d2 = true <-> d1 = d2.
Proof.
  revert d2. induction d1 as [|[k1 v1] r1 IH]; intros [|[k2 v2] r2]; cbn [dict_same];
    split; intros H; try discriminate H; try reflexivity.
  - apply andb_true_iff in H. destruct H as [H H3].
    apply andb_true_iff in H. destruct H as [H1 H2].
    apply String.eqb_eq in H1. apply same_eq in H2. apply IH in H3. congruence.
  - inversion H; subst. rewrite String.eqb_refl.
    rewrite (proj2 (same_eq v2 v2) eq_refl).
    rewrite (proj2 (IH r2) eq_refl). reflexivity.
Qed.

(** ** [list.remove] *)

Section Remove.
Context {A : Type} (eqb : A -> A -> bool).
Hypothesis eqb_eq : forall a b, eqb a b = true <-> a = b.

Lemma remove_In (x : A) (l : list A) :
  In x l -> exists l', remove eqb x l = Ok l'.
Proof.
  induction l as [|y rest IH]; intros H; [destruct H|].
  cbn [remove]. destruct (eqb y x) eqn:E; [eexists; reflexivity|].
  destruct H as [H|H].
  - subst y. rewrite (proj2 (eqb_eq x x) eq_refl) in E. discriminate.
  - destruct (IH H) as [l' Hl']. rewrite Hl'. eexists. reflexivity.
Qed.

(** The item removed is the first occurrence of [x]. *)
Lemma remove_first_occurrence (x : A) (l l' : list A) :
  remove eqb x l = Ok l' ->
  exists l1 l2, l = l1 ++ x :: l2 /\ l' = l1 ++ l2 /\ ~ In x l1.
Proof.
  revert l'. induction l as [|y rest IH]; intros l' H; [discriminate H|].
  cbn [remove] in H. destruct (eqb y x) eqn:E.
  - apply eqb_eq in E. subst y. inversion H; subst.
    exists [], l'. repeat split. intros [].
  - destruct (remove eqb x rest) as [r|e] eqn:R; [|discriminate H].
    cbn [bind] in H. inversion H; subst.
    destruct (IH r eq_refl) as [l1 [l2 [E1 [E2 N]]]]. subst.
    exists (y :: l1), l2. repeat split. intros [C|C]; [|exact (N C)].
    subst y. rewrite (proj2 (eqb_eq x x) eq_refl) in E. discriminate.
Qed.

End Remove.

(** ** [next(..., None)] *)

Lemma find_split {A : Type} (p : A -> bool) (l : list A) (x : A) :
  find p l = Some x ->
  exists l1 l2, l = l1 ++ x :: l2 /\ p x = true /\ Forall (fun y => p y = false) l1.
Proof.
  induction l as [|y rest IH]; intros H; [discriminate H|].
  cbn [find] in H. destruct (p y) eqn:E.
  - inversion H; subst. exists [], rest. repeat split; [exact E | constructor].
  - destruct (IH H) as [l1 [l2 [E1 [Px F]]]]. subst.
    exists (y :: l1), l2. repeat split; [exact Px | constructor; assumption].
Qed.

Lemma find_none_Forall {A : Type} (p : A -> bool) (l : list A) :
  find p l = None -> Forall (fun y => p y = false) l.
Proof.
  intros H. apply Forall_forall. intros y Hy. exact (find_none p l H y Hy).
Qed.

Lemma find_app_skip {A : Type} (p : A -> bool) (l1 l2 : list A) :
  Forall (fun y => p y = false) l1 -> find p (l1 ++ l2) = find p l2.
Proof.
  induction 1 as [|y l1 Hy _ IH]; [reflexivity|].
  cbn [app find]. rewrite Hy. exact IH.
Qed.

(** ** [max] *)







End PyFacts.

(* ================================================================== *)
(** * Facts about the percentage calculator *)
(* ================================================================== *)

Module CalculatorFacts.
Import B64 B64Facts Py PyFacts Metrics.
Local Open Scope string_scope.

Lemma Z2F_100 : Z2F 100 = S754_finite false 7036874417766400 (-46).
Proof. vm_compute. reflexivity. Qed.

Lemma Z2F_1000 : Z2F 1000 = S754_finite false 8796093022208000 (-43).
Proof. vm_compute. reflexivity. Qed.

Lemma Z2F_1024 : Z2F 1024 = S754_finite false 4503599627370496 (-42).
Proof. vm_compute. reflexivity. Qed.

(** The usage after the two [if]s, as a function. *)
Lemma convert_eq (x : float) (unit : string) :
  convert x unit
  = Ok (if String.eqb unit "milicores" then fdiv x (Z2F 1000)
        else if String.eqb unit "MiB" then fdiv x (Z2F 1024)
        else x).
Proof.
  unfold convert, convert_milicores_to_cores, convert_mb_to_gb, truediv.
  rewrite Z2F_1000, Z2F_1024. cbn [is_zero].
  destruct (String.eqb unit "milicores") eqn:E1.
  - apply String.eqb_eq in E1. subst unit. reflexivity.
  - cbn [bind]. destruct (String.eqb unit "MiB"); reflexivity.
Qed.

Lemma convert_mono (x y x' y' : float) (unit : string) :
  fle x y = true -> convert x unit = Ok x' -> convert y unit = Ok y' ->
  fle x' y' = true.
Proof.
  intros H. rewrite !convert_eq. intros Hx Hy. inversion Hx. inversion Hy.
  destruct (String.eqb unit "milicores").
  - rewrite Z2F_1000. apply fdiv_mono, H.
  - destruct (String.eqb unit "MiB"); [|exact H].
    rewrite Z2F_1024. apply fdiv_mono, H.
Qed.

(** For a capacity that is not zero the [try] block ends in [round]. *)
Lemma calculate_percentage_nonzero (capacity usage : float) (cu unit : string) :
  is_zero capacity = false ->
  exists usage' r,
    convert usage unit = Ok usage'
    /\ float_round (fmul (fdiv usage' capacity) (Z2F 100)) 4 = Some r
    /\ calculate_percentage capacity usage cu unit = Ok r.
Proof.
  intros Hz. unfold calculate_percentage, float_of.
  rewrite convert_eq. cbn [bind]. unfold truediv. rewrite Hz. cbn [bind].
  eexists. unfold round.
  destruct (float_round_total (fmul (fdiv
     (if String.eqb unit "milicores" then fdiv usage (Z2F 1000)
      else if String.eqb unit "MiB" then fdiv usage (Z2F 1024) else usage)
     capacity) (Z2F 100))) as [r Hr]; [apply fmul_bounded|].
  exists r. rewrite Hr. cbn [try_except]. repeat split.
Qed.

Lemma calculate_percentage_zero (s : bool) (usage : float) (cu unit : string) :
  calculate_percentage (S754_zero s) usage cu unit = Ok (S754_zero false).
Proof.
  unfold calculate_percentage, float_of. rewrite convert_eq. reflexivity.
Qed.

Lemma calculate_percentage_total (capacity usage : float) (cu unit : string) :
  exists r, calculate_percentage capacity usage cu unit = Ok r.
Proof.
  destruct (is_zero capacity) eqn:Z.
  - destruct capacity; try discriminate Z. eexists. apply calculate_percentage_zero.
  - destruct (calculate_percentage_nonzero capacity usage cu unit Z)
      as [u' [r [_ [_ H]]]]. exists r. exact H.
Qed.

Lemma positive_finite (capacity : float) :
  is_finite capacity = true -> fgt capacity (Z2F 0) = true ->
  exists m e, capacity = S754_finite false m e.
Proof.
  destruct capacity as [s|s| |[|] m e]; intros F G; try discriminate F.
  - discriminate G.
  - exfalso. unfold fgt, flt in G. change (Z2F 0) with (S754_zero false) in G.
    cbn [is_nan negb andb] in G. apply negb_true_iff in G.
    unfold fle in G. cbn [F2Q] in G.
    assert (C : Qle_bool (- mag m e) 0 = true).
    { apply Qle_bool_iff. pose proof (mag_pos m e). lra. }
    congruence.
  - exists m, e. reflexivity.
Qed.

Lemma calculate_percentage_mono
    (capacity usage1 usage2 : float) (cu unit : string) :
  is_finite capacity = true -> fgt capacity (Z2F 0) = true ->
  fle usage1 usage2 = true ->
  exists p1 p2,
    calculate_percentage capacity usage1 cu unit = Ok p1
    /\ calculate_percentage capacity usage2 cu unit = Ok p2
    /\ fle p1 p2 = true.
Proof.
  intros F G H.
  destruct (positive_finite capacity F G) as [m [e ->]].
  destruct (calculate_percentage_nonzero (S754_finite false m e) usage1 cu unit eq_refl)
    as [u1 [p1 [C1 [R1 E1]]]].
  destruct (calculate_percentage_nonzero (S754_finite false m e) usage2 cu unit eq_refl)
    as [u2 [p2 [C2 [R2 E2]]]].
  exists p1, p2. repeat split; try assumption.
  eapply float_round_mono; [|exact R1|exact R2].
  rewrite Z2F_100. apply fmul_mono, fdiv_mono.
  eapply convert_mono; eassumption.
Qed.


(** ** Percentages of usages that are not negative *)

Lemma round_q_zero (zs : bool) (q : Q) : (q == 0)%Q -> round_q zs q = S754_zero zs.
Proof.
  intros H. unfold round_q.
  destruct (Qcompare_spec q 0) as [E|E|E]; [reflexivity | exfalso; lra | exfalso; lra].
Qed.

Lemma round_q_sign_self (zs : bool) (q : Q) :
  round_q (sign (round_q zs q)) q = round_q zs q.
Proof. unfold round_q. destruct (q ?= 0)%Q; reflexivity. Qed.

Lemma convert_zero (unit : string) :
  convert (S754_zero false) unit = Ok (S754_zero false).
Proof.
  rewrite convert_eq.
  destruct (String.eqb unit "milicores"); [vm_compute; reflexivity|].
  destruct (String.eqb unit "MiB"); [vm_compute; reflexivity | reflexivity].
Qed.

Lemma nonneg_finite_cases (capacity : float) :
  is_finite capacity = true -> nonneg capacity = true ->
  (exists s, capacity = S754_zero s) \/ (exists m e, capacity = S754_finite false m e).
Proof.
  destruct capacity as [s|s| |[|] m e]; intros F N; try discriminate F.
  - left. exists s. reflexivity.
  - exfalso. unfold nonneg, fle in N. cbn [F2Q] in N.
    apply Qle_bool_iff in N. pose proof (mag_pos m e). lra.
  - right. exists m, e. reflexivity.
Qed.

Lemma float_round_4dp (x v : float) :
  float_round x 4 = Some v -> is_finite v = true -> rounded_4dp v.
Proof.
  intros H F. destruct (is_finite x) eqn:Fx.
  - rewrite float_round_finite in H by exact Fx.
    apply double_round_Some in H.
    exists (rne (F2Q x * pow10 4)). subst v.
    rewrite round_q_sign_self. reflexivity.
  - rewrite float_round_not_finite in H by exact Fx. congruence.
Qed.

Lemma calculate_percentage_nonneg (capacity usage : float) (cu unit : string) :
  is_finite capacity = true -> nonneg capacity = true -> nonneg usage = true ->
  exists v, calculate_percentage capacity usage cu unit = Ok v
            /\ percentage_ok capacity v.
Proof.
  intros F N U.
  destruct (nonneg_finite_cases capacity F N) as [[s ->]|[m [e ->]]].
  - exists (S754_zero false). split; [apply calculate_percentage_zero|].
    split; [reflexivity|]. split; [|reflexivity].
    intros _. exists 0. vm_compute. reflexivity.
  - destruct (calculate_percentage_nonzero (S754_finite false m e) usage cu unit eq_refl)
      as [u' [v [C [R E]]]].
    exists v. split; [exact E|]. split; [|split].
    + unfold nonneg in *.
      assert (U' : fle (S754_zero false) u' = true)
        by (eapply convert_mono; [exact U | apply convert_zero | exact C]).
      eapply float_round_mono; [| |exact R].
      2: { instantiate (1 := S754_zero false). reflexivity. }
      rewrite Z2F_100.
      replace (S754_zero false)
        with (fmul (fdiv (S754_zero false) (S754_finite false m e))
                (S754_finite false 7036874417766400 (-46))).
      * apply fmul_mono, fdiv_mono, U'.
      * rewrite fdiv_finite by reflexivity. cbn [sign F2Q].
        rewrite round_q_zero; [vm_compute; reflexivity|].
        unfold Qdiv. ring.
    + intros Fv. eapply float_round_4dp; eassumption.
    + intros Z. discriminate Z.
Qed.

(** ** Every percentage is a binary64 float *)

Lemma float_round_bounded (x r : float) :
  float_round x 4 = Some r -> bounded r = true.
Proof.
  intros H. destruct (is_finite x) eqn:F.
  - rewrite float_round_finite in H by exact F.
    apply double_round_Some in H. rewrite H. apply round_q_is_bounded.
  - rewrite float_round_not_finite in H by exact F. inversion H; subst.
    destruct r; try discriminate F; reflexivity.
Qed.


Lemma calculate_percentage_bounded (capacity usage v : float) (cu unit : string) :
  calculate_percentage capacity usage cu unit = Ok v -> bounded v = true.
Proof.
  intros H. destruct (is_zero capacity) eqn:Z.
  - destruct capacity; try discriminate Z.
    rewrite calculate_percentage_zero in H. inversion H. reflexivity.
  - destruct (calculate_percentage_nonzero capacity usage cu unit Z)
      as [u' [r [_ [R E]]]].
    rewrite E in H. inversion H; subst. eapply float_round_bounded, R.
Qed.

Lemma metric_usage_percentage_total (self : self_state) (metrics : usage_record)
    (capacity_details : capacity_record) :
  capacity_details_of self metrics = Some capacity_details ->
  exists cpu_usage memory_usage cpu_request memory_request,
    metric_usage_percentage self metrics
    = Ok (bundle cpu_usage memory_usage cpu_request memory_request)
    /\ bundle_bounded (bundle cpu_usage memory_usage cpu_request memory_request)
       = true.
Proof.
  intros Hc. unfold metric_usage_percentage. rewrite Hc.
  destruct (calculate_percentage_total (node_capacity_cpu capacity_details)
              (pod_usage_cpu metrics) (node_capacity_cpu_unit capacity_details)
              (pod_usage_cpu_unit metrics)) as [a Ea].
  destruct (calculate_percentage_total (node_capacity_memory capacity_details)
              (pod_usage_memory metrics) (node_capacity_memory_unit capacity_details)
              (pod_usage_memory_unit metrics)) as [b Eb].
  destruct (calculate_percentage_total (node_capacity_cpu capacity_details)
              (pod_request_cpu metrics) (node_capacity_cpu_unit capacity_details)
              (pod_request_cpu_unit metrics)) as [c Ec].
  destruct (calculate_percentage_total (node_capacity_memory capacity_details)
              (pod_request_memory metrics) (node_capacity_memory_unit capacity_details)
              (pod_request_memory_unit metrics)) as [d Ed].
  exists a, b, c, d. rewrite Ea, Eb, Ec, Ed. cbn [bind].
  split; [reflexivity|].
  unfold bundle_bounded, bundle, values. cbn [map snd forallb].
  rewrite (calculate_percentage_bounded _ _ _ _ _ Ea),
          (calculate_percentage_bounded _ _ _ _ _ Eb),
          (calculate_percentage_bounded _ _ _ _ _ Ec),
          (calculate_percentage_bounded _ _ _ _ _ Ed). reflexivity.
Qed.


End CalculatorFacts.

(* ================================================================== *)
(** * Facts about the aggregator *)
(* ================================================================== *)

Module AggregatorFacts.
Import B64 B64Facts Py PyFacts Metrics CalculatorFacts.
Local Open Scope string_scope.
Local Open Scope list_scope.

Lemma option_string_eqb_eq (a b : option string) :
  option_string_eqb a b = true <-> a = b.
Proof.
  destruct a as [x|], b as [y|]; cbn [option_string_eqb]; split; intros H;
    try discriminate H; try reflexivity.
  - apply String.eqb_eq in H. congruence.
  - inversion H. apply String.eqb_refl.
Qed.

Lemma entry_eqb_eq (a b : utilization_entry) : entry_eqb a b = true <-> a = b.
Proof.
  unfold entry_eqb. split.
  - intros H. repeat (apply andb_true_iff in H; destruct H as [H ?]).
    destruct a, b. cbn [e_namespace e_utilization e_utilization_unit e_node_id e_details] in *.
    apply String.eqb_eq in H. apply same_eq in H3. apply String.eqb_eq in H2.
    apply option_string_eqb_eq in H1. apply dict_same_eq in H0. congruence.
  - intros <-. rewrite !String.eqb_refl.
    rewrite (proj2 (same_eq _ _) eq_refl).
    rewrite (proj2 (option_string_eqb_eq _ _) eq_refl).
    rewrite (proj2 (dict_same_eq _ _) eq_refl). reflexivity.
Qed.

(** ** The dict mutated in place *)

Lemma update_first_split {A : Type} (p : A -> bool) (f : A -> A)
    (l1 l2 : list A) (x : A) :
  Forall (fun y => p y = false) l1 -> p x = true ->
  update_first p f (l1 ++ x :: l2) = l1 ++ f x :: l2.
Proof.
  intros H Px. induction H as [|y l1 Hy _ IH]; cbn [app update_first].
  - rewrite Px. reflexivity.
  - rewrite Hy, IH. reflexivity.
Qed.

Lemma remove_split (x : utilization_entry) (l1 l2 : list utilization_entry) :
  ~ In x l1 -> remove entry_eqb x (l1 ++ x :: l2) = Ok (l1 ++ l2).
Proof.
  induction l1 as [|y l1 IH]; intros N; cbn [app remove].
  - rewrite (proj2 (entry_eqb_eq x x) eq_refl). reflexivity.
  - destruct (entry_eqb y x) eqn:E.
    + apply entry_eqb_eq in E. subst y. exfalso. apply N. left. reflexivity.
    + rewrite IH by (intros C; apply N; right; exact C). reflexivity.
Qed.

Lemma not_in_namespace (ns : string) (x : utilization_entry)
    (l : list utilization_entry) :
  Forall (fun y => in_namespace ns y = false) l -> in_namespace ns x = true ->
  ~ In x l.
Proof.
  intros F Px C. rewrite Forall_forall in F. rewrite (F x C) in Px. discriminate.
Qed.

(** ** The three cases of [__build_node_id_wise_result] *)

Lemma build_new (self : self_state) (node_id node_name : string)
    (e : utilization_entry) :
  next_or_none (is_node node_id) (node_id_wise_reponse self) = None ->
  build_node_id_wise_result self node_id node_name e
  = Ok (set_node_id_wise_reponse self
          (node_id_wise_reponse self
           ++ [{| n_node_id := node_id; n_node_name := node_name;
                  utilization_detail := [pop_node_id e] |}])).
Proof. intros H. unfold build_node_id_wise_result. rewrite H. reflexivity. Qed.

Lemma find_of_split {A : Type} (p : A -> bool) (l1 l2 : list A) (x : A) :
  Forall (fun y => p y = false) l1 -> p x = true ->
  find p (l1 ++ x :: l2) = Some x.
Proof.
  intros F Px. rewrite find_app_skip by exact F. cbn [find]. rewrite Px. reflexivity.
Qed.

Lemma build_append (self : self_state) (node_id node_name : string)
    (e : utilization_entry) (l1 l2 : list node_record) (existing : node_record) :
  node_id_wise_reponse self = l1 ++ existing :: l2 ->
  Forall (fun y => is_node node_id y = false) l1 ->
  is_node node_id existing = true ->
  next_or_none (in_namespace (e_namespace e)) (utilization_detail existing) = None ->
  build_node_id_wise_result self node_id node_name e
  = Ok (set_node_id_wise_reponse self
          (l1 ++ set_utilization_detail
                   (utilization_detail existing ++ [pop_node_id e]) existing
              :: l2)).
Proof.
  intros Hn F Px Hd. unfold build_node_id_wise_result, next_or_none in *.
  rewrite Hn, (find_of_split _ _ _ _ F Px).
  cbn [pop_node_id e_namespace]. rewrite Hd.
  rewrite update_first_split by assumption. reflexivity.
Qed.

Lemma build_merge (self : self_state) (node_id node_name : string)
    (e old : utilization_entry) (l1 l2 : list node_record) (existing : node_record)
    (d1 d2 : list utilization_entry) :
  node_id_wise_reponse self = l1 ++ existing :: l2 ->
  Forall (fun y => is_node node_id y = false) l1 ->
  is_node node_id existing = true ->
  utilization_detail existing = d1 ++ old :: d2 ->
  Forall (fun y => in_namespace (e_namespace e) y = false) d1 ->
  in_namespace (e_namespace e) old = true ->
  build_node_id_wise_result self node_id node_name e
  = bind (merge_entries old (pop_node_id e))
      (fun merged =>
         Ok (set_node_id_wise_reponse self
               (l1 ++ set_utilization_detail ((d1 ++ d2) ++ [merged]) existing
                   :: l2))).
Proof.
  intros Hn F Px Hd Fd Pold. unfold build_node_id_wise_result, next_or_none in *.
  rewrite Hn, (find_of_split _ _ _ _ F Px).
  cbn [pop_node_id e_namespace]. rewrite Hd, (find_of_split _ _ _ _ Fd Pold).
  rewrite remove_split by (eapply not_in_namespace; eassumption).
  cbn [bind]. destruct (merge_entries _ _) as [merged|err]; [|reflexivity].
  cbn [bind]. rewrite update_first_split by assumption. reflexivity.
Qed.

(** Every call that returns is one of the three. *)
Lemma build_cases (self self' : self_state) (node_id node_name : string)
    (e : utilization_entry) :
  build_node_id_wise_result self node_id node_name e = Ok self' ->
  let nodes := node_id_wise_reponse self in
  let nodes' := node_id_wise_reponse self' in
  capacity_map_array self' = capacity_map_array self /\
  ((Forall (fun y => is_node node_id y = false) nodes
    /\ nodes' = nodes ++ [{| n_node_id := node_id; n_node_name := node_name;
                            utilization_detail := [pop_node_id e] |}])
   \/ exists l1 existing l2,
        nodes = l1 ++ existing :: l2
        /\ Forall (fun y => is_node node_id y = false) l1
        /\ is_node node_id existing = true
        /\ ((Forall (fun y => in_namespace (e_namespace e) y = false)
               (utilization_detail existing)
             /\ nodes' = l1 ++ set_utilization_detail
                                (utilization_detail existing ++ [pop_node_id e])
                                existing :: l2)
            \/ exists d1 old d2 merged,
                 utilization_detail existing = d1 ++ old :: d2
                 /\ Forall (fun y => in_namespace (e_namespace e) y = false) d1
                 /\ in_namespace (e_namespace e) old = true
                 /\ merge_entries old (pop_node_id e) = Ok merged
                 /\ nodes' = l1 ++ set_utilization_detail
                                    ((d1 ++ d2) ++ [merged]) existing :: l2)).
Proof.
  intros H. cbn zeta.
  destruct (next_or_none (is_node node_id) (node_id_wise_reponse self))
    as [existing|] eqn:Hn.
  - destruct (find_split _ _ _ Hn) as [l1 [l2 [En [Px F]]]].
    destruct (next_or_none (in_namespace (e_namespace e)) (utilization_detail existing))
      as [old|] eqn:Hd.
    + destruct (find_split _ _ _ Hd) as [d1 [d2 [Ed [Pold Fd]]]].
      rewrite (build_merge self node_id node_name e old l1 l2 existing d1 d2
                 En F Px Ed Fd Pold) in H.
      destruct (merge_entries old (pop_node_id e)) as [merged|err] eqn:M;
        [|discriminate H].
      cbn [bind] in H. inversion H; subst self'. cbn. split; [reflexivity|].
      right. exists l1, existing, l2. repeat split; try assumption.
      right. exists d1, old, d2, merged. repeat split; assumption.
    + rewrite (build_append self node_id node_name e l1 l2 existing En F Px Hd) in H.
      inversion H; subst self'. cbn. split; [reflexivity|].
      right. exists l1, existing, l2. repeat split; try assumption.
      left. split; [apply find_none_Forall, Hd | reflexivity].
  - rewrite (build_new self node_id node_name e Hn) in H.
    inversion H; subst self'. cbn. split; [reflexivity|].
    left. split; [apply find_none_Forall, Hn | reflexivity].
Qed.


(** ** The merged entry *)

Lemma merge_entries_fields (old new merged : utilization_entry) :
  merge_entries old new = Ok merged ->
  e_namespace merged = e_namespace new
  /\ e_utilization_unit merged = "percent"
  /\ e_node_id merged = None
  /\ merge_details (e_details old) (e_details new) = Ok (e_details merged)
  /\ max (values (e_details merged)) = Ok (e_utilization merged).
Proof.
  unfold merge_entries.
  destruct (merge_details _ _) as [d|err] eqn:D; [|discriminate].
  cbn [bind]. destruct (max (values d)) as [u|err] eqn:M; [|discriminate].
  cbn [bind]. intros H. inversion H; subst merged.
  cbn [e_namespace e_utilization_unit e_node_id e_details e_utilization].
  repeat split; assumption.
Qed.

(** ** Uniqueness of nodes and of namespaces *)

Lemma NoDup_snoc {A : Type} (l : list A) (x : A) :
  NoDup l -> ~ In x l -> NoDup (l ++ [x]).
Proof.
  intros N H. apply (Permutation_NoDup (Permutation_cons_append l x)).
  constructor; assumption.
Qed.

Lemma NoDup_move {A : Type} (a b : list A) (x : A) :
  NoDup (a ++ x :: b) -> NoDup ((a ++ b) ++ [x]).
Proof.
  intros N. apply NoDup_remove in N. destruct N as [N H].
  apply NoDup_snoc; assumption.
Qed.

Lemma is_node_false (node_id : string) (l : list node_record) :
  Forall (fun y => is_node node_id y = false) l -> ~ In node_id (map n_node_id l).
Proof.
  intros F C. apply in_map_iff in C. destruct C as [y [E Hy]].
  rewrite Forall_forall in F. specialize (F y Hy).
  unfold is_node in F. rewrite E, String.eqb_refl in F. discriminate.
Qed.

Lemma in_namespace_false (ns : string) (l : list utilization_entry) :
  Forall (fun y => in_namespace ns y = false) l -> ~ In ns (map e_namespace l).
Proof.
  intros F C. apply in_map_iff in C. destruct C as [y [E Hy]].
  rewrite Forall_forall in F. specialize (F y Hy).
  unfold in_namespace in F. rewrite E, String.eqb_refl in F. discriminate.
Qed.

Lemma build_report_invariant (self self' : self_state)
    (node_id node_name : string) (e : utilization_entry) :
  report_invariant (node_id_wise_reponse self) ->
  build_node_id_wise_result self node_id node_name e = Ok self' ->
  report_invariant (node_id_wise_reponse self').
Proof.
  intros [U N] H. apply build_cases in H. cbn zeta in H.
  destruct H as [_ [[F E]|[l1 [ex [l2 [En [F [Px H]]]]]]]].
  - rewrite E. split.
    + unfold unique_nodes in *. rewrite map_app. cbn [map n_node_id].
      apply NoDup_snoc; [exact U | apply is_node_false, F].
    + apply Forall_app. split; [exact N|]. repeat constructor. intros [].
  - rewrite En in U, N. apply Forall_app in N. destruct N as [N1 N2].
    inversion N2 as [|? ? Nex N2']; subst.
    assert (Hk : forall d,
               NoDup (map e_namespace d) ->
               report_invariant (l1 ++ set_utilization_detail d ex :: l2)).
    { intros d Hd. split.
      - unfold unique_nodes in *. rewrite map_app in *. exact U.
      - apply Forall_app. split; [exact N1|]. constructor; [exact Hd | exact N2']. }
    unfold unique_namespaces in Nex.
    destruct H as [[Fd E]|[d1 [old [d2 [merged [Ed [Fd [Pold [M E]]]]]]]]];
      rewrite E; apply Hk.
    + rewrite map_app. cbn [map pop_node_id e_namespace].
      apply NoDup_snoc; [exact Nex | apply in_namespace_false, Fd].
    + apply merge_entries_fields in M. destruct M as [Mn _].
      cbn [pop_node_id e_namespace] in Mn.
      rewrite Ed in Nex. rewrite map_app in Nex. cbn [map] in Nex.
      rewrite !map_app. cbn [map]. rewrite Mn.
      apply String.eqb_eq in Pold. rewrite <- Pold.
      apply NoDup_move, Nex.
Qed.

Lemma build_report_keys (self self' : self_state)
    (node_id node_name : string) (e : utilization_entry) :
  report_keys (node_id_wise_reponse self) ->
  build_node_id_wise_result self node_id node_name e = Ok self' ->
  report_keys (node_id_wise_reponse self').
Proof.
  unfold report_keys. intros K H. apply build_cases in H. cbn zeta in H.
  destruct H as [_ [[F E]|[l1 [ex [l2 [En [F [Px H]]]]]]]].
  - rewrite E. apply Forall_app. split; [exact K|]. repeat constructor.
  - rewrite En in K. apply Forall_app in K. destruct K as [K1 K2].
    inversion K2 as [|? ? Kex K2']; subst.
    destruct H as [[Fd E]|[d1 [old [d2 [merged [Ed [Fd [Pold [M E]]]]]]]]];
      rewrite E; apply Forall_app; (split; [exact K1|]);
      (constructor; [|exact K2']); cbn [set_utilization_detail utilization_detail].
    + apply Forall_app. split; [exact Kex|]. repeat constructor.
    + apply merge_entries_fields in M. destruct M as [_ [_ [Mi _]]].
      rewrite Ed in Kex. apply Forall_app in Kex. destruct Kex as [Kd1 Kd2].
      inversion Kd2; subst.
      apply Forall_app. split; [apply Forall_app; split; assumption|].
      repeat constructor. unfold entry_keys. rewrite Mi. reflexivity.
Qed.

(** ** The loop over the records *)

Lemma ingest_build (self self' : self_state) (r : usage_record) :
  ingest self r = Ok self' ->
  exists e, build_node_id_wise_result self (u_node_id r) (u_node_name r) e = Ok self'.
Proof.
  unfold ingest.
  destruct (metric_usage_percentage self r) as [p|err]; [|discriminate].
  cbn [bind]. destruct (namespace_wise_utilization_dict r p) as [e|err]; [|discriminate].
  cbn [bind]. intros H. exists e. exact H.
Qed.

Lemma ingest_all_invariant (P : list node_record -> Prop) :
  (forall self self' node_id node_name e,
      P (node_id_wise_reponse self) ->
      build_node_id_wise_result self node_id node_name e = Ok self' ->
      P (node_id_wise_reponse self')) ->
  forall records self self',
    P (node_id_wise_reponse self) ->
    ingest_all self records = Ok self' ->
    P (node_id_wise_reponse self').
Proof.
  intros Step. induction records as [|r rest IH]; intros self self' HP H.
  - inversion H; subst. exact HP.
  - cbn [ingest_all] in H. destruct (ingest self r) as [s1|err] eqn:E; [|discriminate H].
    cbn [bind] in H. destruct (ingest_build _ _ _ E) as [e He].
    eapply IH; [|exact H]. eapply Step; eassumption.
Qed.


(** ** The merged bundle *)

Lemma merge_details_eq (old new : dict float) :
  merge_details old new
  = bind (sum_rounded old new "cpu_usage_percentage") (fun cpu_usage =>
    bind (sum_rounded old new "memory_usage_percentage") (fun memory_usage =>
    bind (sum_rounded old new "cpu_request_percentage") (fun cpu_request =>
    bind (sum_rounded old new "memory_request_percentage") (fun memory_request =>
    Ok [("cpu_usage_percentage", cpu_usage);
        ("memory_usage_percentage", memory_usage);
        ("cpu_request_percentage", cpu_request);
        ("memory_request_percentage", memory_request)])))).
Proof.
  unfold merge_details, percentage_keys. cbn [fold_left bind].
  destruct (sum_rounded old new "cpu_usage_percentage"); [|reflexivity].
  cbn [bind].
  destruct (sum_rounded old new "memory_usage_percentage"); [|reflexivity].
  cbn [bind].
  destruct (sum_rounded old new "cpu_request_percentage"); [|reflexivity].
  cbn [bind].
  destruct (sum_rounded old new "memory_request_percentage"); reflexivity.
Qed.

Lemma get_bounded (d : dict float) (key : string) :
  bundle_bounded d = true -> bounded (get d key (Z2F 0)) = true.
Proof.
  unfold bundle_bounded, values. induction d as [|[k v] d IH]; cbn [map forallb get snd].
  - intros _. reflexivity.
  - intros H. apply andb_true_iff in H. destruct H as [Hv Hd].
    destruct (String.eqb k key); [exact Hv | apply IH, Hd].
Qed.

Lemma sum_rounded_total (old new : dict float) (key : string) :
  bundle_bounded old = true -> bundle_bounded new = true ->
  exists v, sum_rounded old new key = Ok v.
Proof.
  intros Ho Hn. unfold sum_rounded, round.
  destruct (float_round_total (fadd (get old key (Z2F 0)) (get new key (Z2F 0))))
    as [v Hv].
  - apply fadd_bounded; apply get_bounded; assumption.
  - exists v. rewrite Hv. reflexivity.
Qed.

Lemma sum_rounded_comm (a b : dict float) (key : string) :
  sum_rounded a b key = sum_rounded b a key.
Proof. unfold sum_rounded. rewrite fadd_comm. reflexivity. Qed.

Lemma merge_details_comm (a b : dict float) : merge_details a b = merge_details b a.
Proof. rewrite !merge_details_eq, !(sum_rounded_comm a b). reflexivity. Qed.

Lemma merge_entries_total (old new : utilization_entry) :
  bundle_bounded (e_details old) = true -> bundle_bounded (e_details new) = true ->
  exists cpu_usage memory_usage cpu_request memory_request utilization,
    sum_rounded (e_details old) (e_details new) "cpu_usage_percentage" = Ok cpu_usage
    /\ sum_rounded (e_details old) (e_details new) "memory_usage_percentage" = Ok memory_usage
    /\ sum_rounded (e_details old) (e_details new) "cpu_request_percentage" = Ok cpu_request
    /\ sum_rounded (e_details old) (e_details new) "memory_request_percentage" = Ok memory_request
    /\ max [cpu_usage; memory_usage; cpu_request; memory_request] = Ok utilization
    /\ merge_entries old new
       = Ok {| e_namespace := e_namespace new;
               e_utilization := utilization;
               e_utilization_unit := "percent";
               e_node_id := None;
               e_details := [("cpu_usage_percentage", cpu_usage);
                             ("memory_usage_percentage", memory_usage);
                             ("cpu_request_percentage", cpu_request);
                             ("memory_request_percentage", memory_request)] |}.
Proof.
  intros Ho Hn.
  destruct (sum_rounded_total _ _ "cpu_usage_percentage" Ho Hn) as [v1 H1].
  destruct (sum_rounded_total _ _ "memory_usage_percentage" Ho Hn) as [v2 H2].
  destruct (sum_rounded_total _ _ "cpu_request_percentage" Ho Hn) as [v3 H3].
  destruct (sum_rounded_total _ _ "memory_request_percentage" Ho Hn) as [v4 H4].
  exists v1, v2, v3, v4. eexists. repeat (split; [eassumption|]).
  split; [reflexivity|].
  unfold merge_entries. rewrite merge_details_eq, H1, H2, H3, H4. reflexivity.
Qed.

Lemma ingest_all_app (self : self_state) (a b : list usage_record) :
  ingest_all self (a ++ b) = bind (ingest_all self a) (fun s => ingest_all s b).
Proof.
  revert self. induction a as [|r a IH]; intros self; [reflexivity|].
  cbn [app ingest_all]. destruct (ingest self r); [|reflexivity].
  cbn [bind]. apply IH.
Qed.

Lemma save_capacity_data_nodes (self : self_state)
    (replies : list (api_reply capacity_record)) :
  node_id_wise_reponse (save_capacity_data self replies) = node_id_wise_reponse self.
Proof.
  revert self. induction replies as [|reply later IH]; intros self; [reflexivity|].
  cbn [save_capacity_data]. destruct (Z.eqb _ _); [|reflexivity].
  destruct (next_token reply); [rewrite IH|]; reflexivity.
Qed.

Lemma request_invariant (P : list node_record -> Prop) :
  (forall self self' node_id node_name e,
      P (node_id_wise_reponse self) ->
      build_node_id_wise_result self node_id node_name e = Ok self' ->
      P (node_id_wise_reponse self')) ->
  forall replies self self',
    P (node_id_wise_reponse self) ->
    request_openshift_report_api self replies = Ok self' ->
    P (node_id_wise_reponse self').
Proof.
  intros Step. induction replies as [|reply later IH]; intros self self' HP H.
  - inversion H; subst. exact HP.
  - cbn [request_openshift_report_api] in H.
    destruct (Z.eqb _ _); [|inversion H; subst; exact HP].
    destruct (ingest_all self (response reply)) as [s1|err] eqn:E; [|discriminate H].
    cbn [bind] in H.
    pose proof (ingest_all_invariant P Step _ _ _ HP E) as HP1.
    destruct (next_token reply); [eapply IH; eassumption|].
    inversion H; subst. exact HP1.
Qed.

Lemma final_response_invariant (P : list node_record -> Prop) :
  (forall self self' node_id node_name e,
      P (node_id_wise_reponse self) ->
      build_node_id_wise_result self node_id node_name e = Ok self' ->
      P (node_id_wise_reponse self')) ->
  P [] ->
  forall capacity_replies usage_replies nodes,
    final_response capacity_replies usage_replies = Ok nodes -> P nodes.
Proof.
  intros Step P0 capacity_replies usage_replies nodes. unfold final_response.
  destruct (request_openshift_report_api _ _) as [obj|err] eqn:E; [|discriminate].
  cbn [bind]. intros H. inversion H; subst.
  eapply request_invariant; [exact Step| |exact E].
  rewrite save_capacity_data_nodes. exact P0.
Qed.

(** ** Node records, in the order of first occurrence *)

Lemma existsb_is_node (node_id : string) (nodes : list node_record) :
  existsb (String.eqb node_id) (map n_node_id nodes)
  = existsb (is_node node_id) nodes.
Proof.
  induction nodes as [|n nodes IH]; [reflexivity|].
  cbn [map existsb]. rewrite IH. unfold is_node.
  rewrite (String.eqb_sym node_id). reflexivity.
Qed.

Lemma build_node_ids (self self' : self_state) (node_id node_name : string)
    (e : utilization_entry) :
  build_node_id_wise_result self node_id node_name e = Ok self' ->
  map n_node_id (node_id_wise_reponse self')
  = first_seen_from (map n_node_id (node_id_wise_reponse self)) [node_id].
Proof.
  intros H. apply build_cases in H. cbn zeta in H.
  cbn [first_seen_from]. rewrite existsb_is_node.
  destruct H as [_ [[F E]|[l1 [ex [l2 [En [F [Px H]]]]]]]].
  - rewrite E, map_app.
    replace (existsb (is_node node_id) (node_id_wise_reponse self)) with false;
      [reflexivity|].
    symmetry. apply not_true_is_false. intros C.
    apply existsb_exists in C. destruct C as [y [Hy Py]].
    rewrite Forall_forall in F. rewrite (F y Hy) in Py. discriminate.
  - replace (existsb (is_node node_id) (node_id_wise_reponse self)) with true.
    + rewrite En.
      destruct H as [[_ E]|[d1 [old [d2 [merged [_ [_ [_ [_ E]]]]]]]]];
        rewrite E, !map_app; reflexivity.
    + symmetry. apply existsb_exists. exists ex. split; [|exact Px].
      rewrite En. apply in_elt.
Qed.

Lemma first_seen_from_app (seen a b : list string) :
  first_seen_from seen (a ++ b) = first_seen_from (first_seen_from seen a) b.
Proof.
  revert seen. induction a as [|x a IH]; intros seen; [reflexivity|].
  cbn [app first_seen_from]. apply IH.
Qed.

Lemma ingest_all_node_ids (records : list usage_record) (self self' : self_state) :
  ingest_all self records = Ok self' ->
  map n_node_id (node_id_wise_reponse self')
  = first_seen_from (map n_node_id (node_id_wise_reponse self))
      (map u_node_id records).
Proof.
  revert self. induction records as [|r rest IH]; intros self H.
  - inversion H; subst. reflexivity.
  - cbn [ingest_all] in H. destruct (ingest self r) as [s1|err] eqn:E; [|discriminate H].
    cbn [bind] in H. destruct (ingest_build _ _ _ E) as [e He].
    rewrite (IH _ H), (build_node_ids _ _ _ _ _ He). reflexivity.
Qed.

(** ** Every stored bundle is made of binary64 floats *)



Lemma namespace_wise_utilization_dict_fields (result : usage_record)
    (usage_percentages : dict float) (e : utilization_entry) :
  namespace_wise_utilization_dict result usage_percentages = Ok e ->
  e_namespace e = u_namespace result /\ e_details e = usage_percentages.
Proof.
  unfold namespace_wise_utilization_dict.
  destruct (max (values usage_percentages)); [|discriminate].
  cbn [bind]. intros H. inversion H. split; reflexivity.
Qed.



(** ** Two records of one namespace, in both orders *)

Lemma merge_entries_pop (old new : utilization_entry) :
  merge_entries (pop_node_id old) (pop_node_id new) = merge_entries old new.
Proof. reflexivity. Qed.

Lemma merge_entries_comm (a b : utilization_entry) :
  e_namespace a = e_namespace b -> merge_entries a b = merge_entries b a.
Proof.
  intros E. unfold merge_entries. rewrite (merge_details_comm (e_details a)), E.
  reflexivity.
Qed.

(** The node records once an entry [merged] stands for a namespace that
    had none. *)
Lemma build_then_build (self : self_state) (node_id node_name : string)
    (a b : utilization_entry) :
  e_namespace a = e_namespace b ->
  lookup_entry self node_id (e_namespace a) = None ->
  bind (build_node_id_wise_result self node_id node_name a)
       (fun s => build_node_id_wise_result s node_id node_name b)
  = bind (merge_entries a b)
      (fun merged =>
         Ok (set_node_id_wise_reponse self
               match next_or_none (is_node node_id) (node_id_wise_reponse self) with
               | None =>
                   node_id_wise_reponse self
                   ++ [{| n_node_id := node_id; n_node_name := node_name;
                          utilization_detail := [merged] |}]
               | Some existing =>
                   update_first (is_node node_id)
                     (set_utilization_detail
                        (utilization_detail existing ++ [merged]))
                     (node_id_wise_reponse self)
               end)).
Proof.
  intros E L. unfold lookup_entry in L.
  assert (Pa : in_namespace (e_namespace b) (pop_node_id a) = true)
    by (unfold in_namespace; cbn [pop_node_id e_namespace]; rewrite E;
        apply String.eqb_refl).
  assert (Pn : forall n d,
             is_node node_id {| n_node_id := node_id; n_node_name := n;
                                utilization_detail := d |} = true)
    by (intros; apply String.eqb_refl).
  destruct (next_or_none (is_node node_id) (node_id_wise_reponse self))
    as [existing|] eqn:Hn.
  - destruct (find_split _ _ _ Hn) as [l1 [l2 [En [Px F]]]].
    rewrite (build_append self node_id node_name a l1 l2 existing En F Px L).
    cbn [bind].
    rewrite (build_merge _ node_id node_name b (pop_node_id a) l1 l2
               (set_utilization_detail
                  (utilization_detail existing ++ [pop_node_id a]) existing)
               (utilization_detail existing) []);
      [ | reflexivity | exact F | exact Px | reflexivity
        | rewrite <- E; apply find_none_Forall, L | exact Pa ].
    rewrite merge_entries_pop.
    destruct (merge_entries a b) as [merged|err]; [|reflexivity].
    cbn [bind]. rewrite En, update_first_split by assumption.
    rewrite app_nil_r. reflexivity.
  - rewrite (build_new self node_id node_name a Hn). cbn [bind].
    rewrite (build_merge _ node_id node_name b (pop_node_id a)
               (node_id_wise_reponse self) []
               {| n_node_id := node_id; n_node_name := node_name;
                  utilization_detail := [pop_node_id a] |} [] []);
      [ | reflexivity | apply find_none_Forall, Hn | apply Pn | reflexivity
        | constructor | exact Pa ].
    rewrite merge_entries_pop.
    destruct (merge_entries a b) as [merged|err]; reflexivity.
Qed.

Lemma find_none_of_Forall {A : Type} (p : A -> bool) (l : list A) :
  Forall (fun y => p y = false) l -> find p l = None.
Proof.
  induction 1 as [|y l Hy _ IH]; [reflexivity|].
  cbn [find]. rewrite Hy. exact IH.
Qed.

End AggregatorFacts.

(* ================================================================== *)
(** * The properties of the specification *)
(* ================================================================== *)

Import B64 B64Facts Py PyFacts Metrics CalculatorFacts AggregatorFacts Examples.
Local Open Scope string_scope.
Local Open Scope list_scope.

(** ** The percentage calculator *)

(** C2.  A capacity of zero, [0.0] or [-0.0], makes the percentage
    exactly [0.0], whatever the usage and its unit: the
    [ZeroDivisionError] of the division is caught, nothing is raised. *)
Theorem zero_capacity_percentage_is_zero :
  forall (s : bool) (actual_usage : float) (capacity_unit actual_usage_unit : string),
    calculate_percentage (S754_zero s) actual_usage capacity_unit actual_usage_unit
    = Ok (S754_zero false).
Proof. intros. apply calculate_percentage_zero. Qed.

(** C3, as the specification has it, fails: the unit ["milli-units"] is
    none that the script tests for, so [1000] of it stays [1000.0]. *)
Lemma milli_units_is_not_converted :
  convert (Z2F 1000) "milli-units" = Ok (Z2F 1000)
  /\ convert (Z2F 1000) "milli-units" <> Ok (Z2F 1).
Proof. split; [vm_compute; reflexivity | vm_compute; discriminate]. Qed.

(** C3, amended.  The usage is divided by 1000 for the unit
    ["milicores"], by 1024 for the unit ["MiB"], and is left as it is for
    every other unit, without an error; [1000] milicores are [1.0] and
    [1024] MiB are [1.0]. *)
Theorem convert_by_script_units :
  forall (x : float) (unit : string),
    convert x unit
    = Ok (if String.eqb unit "milicores" then fdiv x (Z2F 1000)
          else if String.eqb unit "MiB" then fdiv x (Z2F 1024)
          else x)
    /\ convert (Z2F 1000) "milicores" = Ok (Z2F 1)
    /\ convert (Z2F 1024) "MiB" = Ok (Z2F 1)
    /\ convert x "some-other-unit" = Ok x.
Proof.
  intros x unit. split; [apply convert_eq|].
  split; [vm_compute; reflexivity|].
  split; [vm_compute; reflexivity|].
  rewrite convert_eq. reflexivity.
Qed.

(** C4, as the specification has it, fails: with the units
    ["milli-units"] and ["binary-mega-units"] nothing is converted and
    the bundle is a thousand times the one expected. *)
Lemma scenario_with_spec_units :
  metric_usage_percentage loaded usage_spec_units
  = Ok (bundle (Z2F 50000) (Z2F 51200) (Z2F 25000) (Z2F 25600))
  /\ metric_usage_percentage loaded usage_spec_units
     <> Ok (bundle (Z2F 50) (Z2F 50) (Z2F 25) (Z2F 25)).
Proof. split; [vm_compute; reflexivity | vm_compute; discriminate]. Qed.

(** C4, amended.  With the units ["milicores"] and ["MiB"] in the usage
    record, the bundle of the scenario is 50.0, 50.0, 25.0, 25.0 and the
    utilization of its entry is 50.0. *)
Theorem scenario_with_script_units :
  metric_usage_percentage loaded usage_script_units
  = Ok (bundle (Z2F 50) (Z2F 50) (Z2F 25) (Z2F 25))
  /\ namespace_wise_utilization_dict usage_script_units
       (bundle (Z2F 50) (Z2F 50) (Z2F 25) (Z2F 25))
     = Ok {| e_namespace := "ns1"; e_utilization := Z2F 50;
             e_utilization_unit := "percent"; e_node_id := Some "n1";
             e_details := bundle (Z2F 50) (Z2F 50) (Z2F 25) (Z2F 25) |}
  /\ ingest loaded usage_script_units = Ok after_first.
Proof. repeat split; vm_compute; reflexivity. Qed.

(** C8, as the specification has it, fails: an infinite capacity is
    greater than zero, and it sends the usage [1.0] to [0.0] and an
    infinite usage to NaN, which nothing is below. *)
Lemma infinite_capacity_is_not_monotone :
  fgt (S754_infinity false) (Z2F 0) = true
  /\ fle (Z2F 1) (S754_infinity false) = true
  /\ calculate_percentage (S754_infinity false) (Z2F 1) "cores" "cores"
     = Ok (S754_zero false)
  /\ calculate_percentage (S754_infinity false) (S754_infinity false) "cores" "cores"
     = Ok S754_nan
  /\ fle (S754_zero false) S754_nan = false.
Proof. repeat split; vm_compute; reflexivity. Qed.

(** C8, amended.  For a finite capacity greater than zero and a usage
    unit, the percentage does not decrease when the usage grows: both
    percentages are returned and are in the order of the usages, the
    conversion of the unit and the rounding to four places included. *)
Theorem percentage_is_monotone :
  forall (capacity usage1 usage2 : float) (capacity_unit actual_usage_unit : string),
    is_finite capacity = true ->
    fgt capacity (Z2F 0) = true ->
    fle usage1 usage2 = true ->
    exists p1 p2,
      calculate_percentage capacity usage1 capacity_unit actual_usage_unit = Ok p1
      /\ calculate_percentage capacity usage2 capacity_unit actual_usage_unit = Ok p2
      /\ fle p1 p2 = true.
Proof. intros. apply calculate_percentage_mono; assumption. Qed.

Lemma percentage_is_monotone_witness :
  is_finite (Z2F 4) = true
  /\ fgt (Z2F 4) (Z2F 0) = true
  /\ fle (Z2F 1000) (Z2F 2000) = true
  /\ exists p1 p2,
       calculate_percentage (Z2F 4) (Z2F 1000) "cores" "milicores" = Ok p1
       /\ calculate_percentage (Z2F 4) (Z2F 2000) "cores" "milicores" = Ok p2
       /\ fle p1 p2 = true.
Proof.
  split; [reflexivity|]. split; [reflexivity|]. split; [reflexivity|].
  apply (percentage_is_monotone (Z2F 4) (Z2F 1000) (Z2F 2000) "cores" "milicores");
    reflexivity.
Defined.

(** C9, as the specification has it, fails: nothing keeps a usage from
    being negative, and its percentage then is negative. *)
Lemma negative_usage_gives_negative_percentage :
  metric_usage_percentage loaded usage_negative
  = Ok (bundle (Z2F (-50)) (Z2F 50) (Z2F 25) (Z2F 25))
  /\ nonneg (Z2F (-50)) = false.
Proof. split; vm_compute; reflexivity. Qed.

(** C9, amended.  For a usage record whose four usages are not negative
    and whose capacity record has finite capacities that are not
    negative, the four values of the bundle are returned, and each is not
    negative, is rounded to four decimal places unless it overflowed to
    infinity, and is exactly [0.0] when its capacity is zero. *)
Theorem percentages_of_nonnegative_usage :
  forall (self : self_state) (metrics : usage_record)
         (capacity_details : capacity_record),
    capacity_details_of self metrics = Some capacity_details ->
    capacity_nonneg capacity_details = true ->
    usage_nonneg metrics = true ->
    exists cpu_usage memory_usage cpu_request memory_request,
      metric_usage_percentage self metrics
      = Ok (bundle cpu_usage memory_usage cpu_request memory_request)
      /\ percentage_ok (node_capacity_cpu capacity_details) cpu_usage
      /\ percentage_ok (node_capacity_memory capacity_details) memory_usage
      /\ percentage_ok (node_capacity_cpu capacity_details) cpu_request
      /\ percentage_ok (node_capacity_memory capacity_details) memory_request.
Proof.
  intros self metrics cd Hc Hcap Hu.
  unfold capacity_nonneg in Hcap. unfold usage_nonneg in Hu.
  repeat (apply andb_true_iff in Hcap; destruct Hcap as [Hcap ?]).
  repeat (apply andb_true_iff in Hu; destruct Hu as [Hu ?]).
  destruct (calculate_percentage_nonneg (node_capacity_cpu cd) (pod_usage_cpu metrics)
              (node_capacity_cpu_unit cd) (pod_usage_cpu_unit metrics))
    as [a [Ea Pa]]; try assumption.
  destruct (calculate_percentage_nonneg (node_capacity_memory cd)
              (pod_usage_memory metrics)
              (node_capacity_memory_unit cd) (pod_usage_memory_unit metrics))
    as [b [Eb Pb]]; try assumption.
  destruct (calculate_percentage_nonneg (node_capacity_cpu cd) (pod_request_cpu metrics)
              (node_capacity_cpu_unit cd) (pod_request_cpu_unit metrics))
    as [c [Ec Pc]]; try assumption.
  destruct (calculate_percentage_nonneg (node_capacity_memory cd)
              (pod_request_memory metrics)
              (node_capacity_memory_unit cd) (pod_request_memory_unit metrics))
    as [d [Ed Pd]]; try assumption.
  exists a, b, c, d. unfold metric_usage_percentage.
  rewrite Hc, Ea, Eb, Ec, Ed. cbn [bind].
  split; [reflexivity|]. split; [exact Pa|]. split; [exact Pb|].
  split; [exact Pc | exact Pd].
Qed.

Lemma percentages_of_nonnegative_usage_witness :
  capacity_details_of loaded usage_script_units = Some capacity_n1
  /\ capacity_nonneg capacity_n1 = true
  /\ usage_nonneg usage_script_units = true
  /\ exists cpu_usage memory_usage cpu_request memory_request,
       metric_usage_percentage loaded usage_script_units
       = Ok (bundle cpu_usage memory_usage cpu_request memory_request)
       /\ percentage_ok (node_capacity_cpu capacity_n1) cpu_usage
       /\ percentage_ok (node_capacity_memory capacity_n1) memory_usage
       /\ percentage_ok (node_capacity_cpu capacity_n1) cpu_request
       /\ percentage_ok (node_capacity_memory capacity_n1) memory_request.
Proof.
  split; [reflexivity|]. split; [reflexivity|]. split; [reflexivity|].
  apply (percentages_of_nonnegative_usage loaded usage_script_units capacity_n1);
    reflexivity.
Defined.

(** ** The usage aggregator *)

(** C5.  A usage record whose key (node_id, namespace, pod_name) is the
    key of no capacity record makes the percentage computation raise
    ([TypeError], from subscripting [None]); the record is not skipped
    and no bundle is made for it: its ingestion raises, and so do the
    loop over the records of its page, whatever was ingested before it,
    and the request that got the page. *)
Theorem orphan_usage_record_raises :
  forall (self : self_state) (metrics : usage_record),
    Forall (fun c => capacity_key c <> usage_key metrics)
           (capacity_map_array self) ->
    metric_usage_percentage self metrics = Raise TypeError
    /\ ingest self metrics = Raise TypeError
    /\ (forall self0 before after,
          ingest_all self0 before = Ok self ->
          ingest_all self0 (before ++ metrics :: after) = Raise TypeError)
    /\ (forall after token later,
          request_openshift_report_api self
            ({| status_code := 200; response := metrics :: after;
                next_token := token |} :: later)
          = Raise TypeError).
Proof.
  intros self metrics H.
  assert (Hm : metric_usage_percentage self metrics = Raise TypeError).
  { unfold metric_usage_percentage, capacity_details_of, next_or_none.
    rewrite find_none_of_Forall; [reflexivity|].
    eapply Forall_impl; [|exact H]. intros c Hc. cbv beta in *.
    destruct (String.eqb (c_node_id c) (u_node_id metrics)) eqn:E1; [|reflexivity].
    destruct (String.eqb (c_namespace c) (u_namespace metrics)) eqn:E2; [|reflexivity].
    destruct (String.eqb (c_pod_name c) (u_pod_name metrics)) eqn:E3; [|reflexivity].
    exfalso. apply Hc. unfold capacity_key, usage_key.
    apply String.eqb_eq in E1, E2, E3. congruence. }
  assert (Hi : ingest self metrics = Raise TypeError)
    by (unfold ingest; rewrite Hm; reflexivity).
  split; [exact Hm|]. split; [exact Hi|]. split.
  - intros self0 before after Hb. rewrite ingest_all_app, Hb.
    cbn [bind ingest_all]. rewrite Hi. reflexivity.
  - intros after token later. cbn [request_openshift_report_api status_code response].
    cbn [Z.eqb Pos.eqb ingest_all]. rewrite Hi. reflexivity.
Qed.

Lemma orphan_usage_record_raises_witness :
  Forall (fun c => capacity_key c <> usage_key usage_script_units)
         (capacity_map_array init)
  /\ metric_usage_percentage init usage_script_units = Raise TypeError
  /\ ingest init usage_script_units = Raise TypeError
  /\ (forall self0 before after,
        ingest_all self0 before = Ok init ->
        ingest_all self0 (before ++ usage_script_units :: after) = Raise TypeError)
  /\ (forall after token later,
        request_openshift_report_api init
          ({| status_code := 200; response := usage_script_units :: after;
              next_token := token |} :: later)
        = Raise TypeError).
Proof.
  split; [constructor|].
  apply (orphan_usage_record_raises init usage_script_units). constructor.
Defined.

(** C6.  From the empty collection of a run, after every ingest that
    returns: the node records are unique by node_id, they are the node
    ids of the records in the order of their first occurrence (a node
    record is made the first time its node_id comes and is used again
    after), and every node record has at most one entry per namespace.
    The same holds of the final report. *)
Theorem report_is_unique_by_node_and_namespace :
  forall (capacity_replies : list (api_reply capacity_record))
         (records : list usage_record) (self' : self_state),
    ingest_all (save_capacity_data init capacity_replies) records = Ok self' ->
    unique_nodes (node_id_wise_reponse self')
    /\ map n_node_id (node_id_wise_reponse self') = first_seen (map u_node_id records)
    /\ Forall unique_namespaces (node_id_wise_reponse self')
    /\ (forall usage_replies nodes,
          final_response capacity_replies usage_replies = Ok nodes ->
          report_invariant nodes).
Proof.
  intros capacity_replies records self' H.
  assert (I0 : report_invariant []) by (split; constructor).
  assert (I : report_invariant (node_id_wise_reponse self')).
  { eapply (ingest_all_invariant report_invariant); [|..|exact H].
    - intros. eapply build_report_invariant; eassumption.
    - rewrite save_capacity_data_nodes. exact I0. }
  destruct I as [U N]. split; [exact U|]. split; [|split; [exact N|]].
  - rewrite (ingest_all_node_ids _ _ _ H), save_capacity_data_nodes. reflexivity.
  - intros usage_replies nodes Hf.
    eapply (final_response_invariant report_invariant); [|exact I0|exact Hf].
    intros. eapply build_report_invariant; eassumption.
Qed.

Lemma report_is_unique_by_node_and_namespace_witness :
  ingest_all (save_capacity_data init [capacity_reply])
    [usage_script_units; usage_second]
  = Ok (set_node_id_wise_reponse loaded
          [node_n1 [entry_ns1 (Z2F 80)
                      (bundle (Z2F 80) (round_q false (125 # 2))
                         (Z2F 50) (Z2F 50))]])
  /\ unique_nodes
       [node_n1 [entry_ns1 (Z2F 80)
                   (bundle (Z2F 80) (round_q false (125 # 2)) (Z2F 50) (Z2F 50))]]
  /\ Forall unique_namespaces
       [node_n1 [entry_ns1 (Z2F 80)
                   (bundle (Z2F 80) (round_q false (125 # 2)) (Z2F 50) (Z2F 50))]].
Proof.
  assert (H : ingest_all (save_capacity_data init [capacity_reply])
                [usage_script_units; usage_second]
              = Ok (set_node_id_wise_reponse loaded
                      [node_n1 [entry_ns1 (Z2F 80)
                                  (bundle (Z2F 80) (round_q false (125 # 2))
                                     (Z2F 50) (Z2F 50))]]))
    by (vm_compute; reflexivity).
  split; [exact H|].
  destruct (report_is_unique_by_node_and_namespace [capacity_reply]
              [usage_script_units; usage_second] _ H) as [U [_ [N _]]].
  split; [exact U | exact N].
Defined.

(** C10.  Every entry stored in a node record, after every ingest that
    returns and so in the final report, has the keys namespace,
    utilization, utilization_unit and details, and no other: the key
    node_id of a new entry is popped before the entry is stored, and a
    merged entry is made without it. *)
Theorem stored_entries_have_four_keys :
  forall (capacity_replies : list (api_reply capacity_record))
         (records : list usage_record) (self' : self_state),
    ingest_all (save_capacity_data init capacity_replies) records = Ok self' ->
    report_keys (node_id_wise_reponse self')
    /\ (forall usage_replies nodes,
          final_response capacity_replies usage_replies = Ok nodes ->
          report_keys nodes).
Proof.
  intros capacity_replies records self' H.
  assert (K0 : report_keys []) by constructor.
  split.
  - eapply (ingest_all_invariant report_keys); [|..|exact H].
    + intros. eapply build_report_keys; eassumption.
    + rewrite save_capacity_data_nodes. exact K0.
  - intros usage_replies nodes Hf.
    eapply (final_response_invariant report_keys); [|exact K0|exact Hf].
    intros. eapply build_report_keys; eassumption.
Qed.

Lemma stored_entries_have_four_keys_witness :
  ingest_all (save_capacity_data init [capacity_reply])
    [usage_script_units; usage_second]
  = Ok (set_node_id_wise_reponse loaded
          [node_n1 [entry_ns1 (Z2F 80)
                      (bundle (Z2F 80) (round_q false (125 # 2))
                         (Z2F 50) (Z2F 50))]])
  /\ report_keys
       [node_n1 [entry_ns1 (Z2F 80)
                   (bundle (Z2F 80) (round_q false (125 # 2)) (Z2F 50) (Z2F 50))]].
Proof.
  assert (H : ingest_all (save_capacity_data init [capacity_reply])
                [usage_script_units; usage_second]
              = Ok (set_node_id_wise_reponse loaded
                      [node_n1 [entry_ns1 (Z2F 80)
                                  (bundle (Z2F 80) (round_q false (125 # 2))
                                     (Z2F 50) (Z2F 50))]]))
    by (vm_compute; reflexivity).
  split; [exact H|].
  exact (proj1 (stored_entries_have_four_keys [capacity_reply]
                  [usage_script_units; usage_second] _ H)).
Defined.




(** The two records of the specification for one node and namespace,
    through the whole loop: 50.0 and 30.0 of cpu usage merge to 80.0. *)
Example two_records_of_one_namespace :
  ingest_all loaded [usage_script_units; usage_second]
  = Ok (set_node_id_wise_reponse loaded
          [node_n1 [entry_ns1 (Z2F 80)
                      (bundle (Z2F 80) (round_q false (125 # 2))
                         (Z2F 50) (Z2F 50))]])
  /\ metric_usage_percentage loaded usage_second
     = Ok (bundle (Z2F 30) (round_q false (25 # 2)) (Z2F 25) (Z2F 25)).
Proof. split; vm_compute; reflexivity. Qed.

(** C7.  Merging is commutative: for two entries [a] and [b] of one
    namespace, merging [b] into [a] and merging [a] into [b] return the
    same entry, so the same details and the same utilization; and when a
    node has no entry yet for the namespace, the two orders of ingesting
    [a] and [b] leave the same node records. *)
Theorem merge_is_commutative :
  forall a b : utilization_entry,
    e_namespace a = e_namespace b ->
    bundle_bounded (e_details a) = true ->
    bundle_bounded (e_details b) = true ->
    (exists merged,
        merge_entries a b = Ok merged /\ merge_entries b a = Ok merged)
    /\ (forall (self : self_state) (node_id node_name : string),
          lookup_entry self node_id (e_namespace a) = None ->
          exists self',
            bind (build_node_id_wise_result self node_id node_name a)
                 (fun s => build_node_id_wise_result s node_id node_name b)
            = Ok self'
            /\ bind (build_node_id_wise_result self node_id node_name b)
                    (fun s => build_node_id_wise_result s node_id node_name a)
               = Ok self').
Proof.
  intros a b E Ba Bb.
  destruct (merge_entries_total a b Ba Bb)
    as [v1 [v2 [v3 [v4 [u [_ [_ [_ [_ [_ Hm]]]]]]]]]].
  pose proof (merge_entries_comm a b E) as C.
  split.
  - eexists. split; [exact Hm | rewrite <- C; exact Hm].
  - intros self node_id node_name L.
    rewrite (build_then_build self node_id node_name a b E L).
    rewrite (build_then_build self node_id node_name b a (eq_sym E))
      by (rewrite <- E; exact L).
    rewrite <- C, Hm. cbn [bind]. eexists. split; reflexivity.
Qed.

Lemma merge_is_commutative_witness :
  e_namespace entry_second
  = e_namespace (entry_ns1 (Z2F 50) (bundle (Z2F 50) (Z2F 50) (Z2F 25) (Z2F 25)))
  /\ bundle_bounded (e_details entry_second) = true
  /\ bundle_bounded (bundle (Z2F 50) (Z2F 50) (Z2F 25) (Z2F 25)) = true
  /\ exists merged,
       merge_entries entry_second
         (entry_ns1 (Z2F 50) (bundle (Z2F 50) (Z2F 50) (Z2F 25) (Z2F 25)))
       = Ok merged
       /\ merge_entries
            (entry_ns1 (Z2F 50) (bundle (Z2F 50) (Z2F 50) (Z2F 25) (Z2F 25)))
            entry_second
          = Ok merged.
Proof.
  split; [reflexivity|]. split; [reflexivity|]. split; [reflexivity|].
  exact (proj1 (merge_is_commutative entry_second
                  (entry_ns1 (Z2F 50) (bundle (Z2F 50) (Z2F 50) (Z2F 25) (Z2F 25)))
                  eq_refl eq_refl eq_refl)).
Defined.

(* ================================================================== *)
(** * Further properties of the script *)
(* ================================================================== *)

Module RunFacts.
Import Report.

(** ** The capacity record of a usage record *)




Lemma metric_usage_percentage_orphan (self : self_state) (r : usage_record) :
  capacity_details_of self r = None ->
  metric_usage_percentage self r = Raise TypeError.
Proof. intros H. unfold metric_usage_percentage. rewrite H. reflexivity. Qed.

(** ** The aggregator returns on every entry of a run *)


Lemma ingest_frame (self self' : self_state) (r : usage_record) :
  ingest self r = Ok self' ->
  capacity_map_array self' = capacity_map_array self
  /\ name_space_wise_response self' = name_space_wise_response self.
Proof.
  intros H. apply ingest_build in H. destruct H as [e H].
  unfold build_node_id_wise_result in H.
  destruct (next_or_none _ _) as [ex|]; [|inversion H; split; reflexivity].
  destruct (next_or_none _ _) as [old|]; [|inversion H; split; reflexivity].
  destruct (remove _ _ _); [|discriminate H]. cbn [bind] in H.
  destruct (merge_entries _ _); [|discriminate H]. cbn [bind] in H.
  inversion H; split; reflexivity.
Qed.

Lemma ingest_all_frame (records : list usage_record) (self self' : self_state) :
  ingest_all self records = Ok self' ->
  capacity_map_array self' = capacity_map_array self
  /\ name_space_wise_response self' = name_space_wise_response self.
Proof.
  revert self. induction records as [|r rest IH]; intros self H.
  - inversion H; subst. split; reflexivity.
  - cbn [ingest_all] in H. destruct (ingest self r) as [s1|err] eqn:E; [|discriminate H].
    cbn [bind] in H. destruct (ingest_frame _ _ _ E) as [C N].
    destruct (IH _ H) as [C' N']. split; congruence.
Qed.



End RunFacts.

Module PaginationFacts.
Import Report RunFacts.



(** ** The two loops over the replies *)

Lemma records_of_cons {R : Type} (p : api_reply R) (pages : list (api_reply R)) :
  records_of (p :: pages) = response p ++ records_of pages.
Proof. reflexivity. Qed.

Lemma request_page_with_next (self : self_state) (p : api_reply usage_record)
    (later : list (api_reply usage_record)) :
  page_with_next p ->
  request_openshift_report_api self (p :: later)
  = bind (ingest_all self (response p))
         (fun s => request_openshift_report_api s later).
Proof.
  intros [S T]. cbn [request_openshift_report_api]. rewrite S.
  cbn [Z.eqb Pos.eqb]. destruct (next_token p); [reflexivity | contradiction].
Qed.

Lemma request_pages (pages later : list (api_reply usage_record))
    (self : self_state) :
  Forall page_with_next pages ->
  request_openshift_report_api self (pages ++ later)
  = bind (ingest_all self (records_of pages))
         (fun s => request_openshift_report_api s later).
Proof.
  revert self. induction pages as [|p pages IH]; intros self H; [reflexivity|].
  inversion H as [|? ? Hp Hrest]; subst.
  cbn [app]. rewrite (request_page_with_next _ _ _ Hp), records_of_cons, ingest_all_app.
  destruct (ingest_all self (response p)) as [s|e]; [|reflexivity].
  cbn [bind]. apply IH, Hrest.
Qed.

Lemma save_page_with_next (self : self_state) (p : api_reply capacity_record)
    (later : list (api_reply capacity_record)) :
  page_with_next p ->
  save_capacity_data self (p :: later)
  = save_capacity_data
      (set_capacity_map_array self (capacity_map_array self ++ response p)) later.
Proof.
  intros [S T]. cbn [save_capacity_data]. rewrite S.
  cbn [Z.eqb Pos.eqb]. destruct (next_token p); [reflexivity | contradiction].
Qed.

Lemma save_pages (pages later : list (api_reply capacity_record))
    (self : self_state) :
  Forall page_with_next pages ->
  save_capacity_data self (pages ++ later)
  = save_capacity_data
      (set_capacity_map_array self (capacity_map_array self ++ records_of pages))
      later.
Proof.
  revert self. induction pages as [|p pages IH]; intros self H.
  - cbn [app]. unfold records_of. cbn [map List.concat]. rewrite app_nil_r.
    destruct self; reflexivity.
  - inversion H as [|? ? Hp Hrest]; subst.
    cbn [app]. rewrite (save_page_with_next _ _ _ Hp), (IH _ Hrest).
    rewrite records_of_cons. cbn [set_capacity_map_array capacity_map_array
      name_space_wise_response node_id_wise_reponse].
    rewrite app_assoc. reflexivity.
Qed.

End PaginationFacts.

Module ReportFacts.
Import Report RunFacts PaginationFacts.

(** ** Looking a node up after a call *)

Lemma find_app_cases {A : Type} (p : A -> bool) (l1 l2 : list A) :
  find p (l1 ++ l2)
  = match find p l1 with Some x => Some x | None => find p l2 end.
Proof.
  induction l1 as [|y l1 IH]; [reflexivity|].
  cbn [app find]. destruct (p y); [reflexivity | exact IH].
Qed.

Lemma is_node_other (id node_id : string) (node : node_record) :
  id <> node_id -> is_node node_id node = true -> is_node id node = false.
Proof.
  unfold is_node. intros N H. apply String.eqb_eq in H.
  apply String.eqb_neq. congruence.
Qed.

(** What a call that returns does to the node records, seen through the
    lookup of a node id: the records of the other nodes stay, the record
    of [node_id] keeps its name, or takes [node_name] when it is new, and
    its entries are those that [now] gives. *)
Lemma build_lookup (self self' : self_state) (node_id node_name : string)
    (e : utilization_entry) :
  build_node_id_wise_result self node_id node_name e = Ok self' ->
  let nodes := node_id_wise_reponse self in
  let nodes' := node_id_wise_reponse self' in
  (forall id, id <> node_id ->
     next_or_none (is_node id) nodes' = next_or_none (is_node id) nodes)
  /\ exists node' last,
       next_or_none (is_node node_id) nodes' = Some node'
       /\ n_node_id node' = node_id
       /\ n_node_name node'
          = match next_or_none (is_node node_id) nodes with
            | Some existing => n_node_name existing
            | None => node_name
            end
       /\ e_namespace last = e_namespace e
       /\ e_node_id last = None
       /\ (exists d1 d2,
             utilization_detail node' = (d1 ++ d2) ++ [last]
             /\ Forall (fun y => in_namespace (e_namespace e) y = false) d1
             /\ match next_or_none (is_node node_id) nodes with
                | None => d1 = [] /\ d2 = [] /\ last = pop_node_id e
                | Some existing =>
                    match next_or_none (in_namespace (e_namespace e))
                            (utilization_detail existing) with
                    | None => utilization_detail existing = d1 /\ d2 = []
                              /\ last = pop_node_id e
                    | Some old =>
                        utilization_detail existing = d1 ++ old :: d2
                        /\ merge_entries old (pop_node_id e) = Ok last
                    end
                end).
Proof.
  intros H. cbn zeta. apply build_cases in H. cbn zeta in H.
  destruct H as [_ [[F E]|[l1 [ex [l2 [En [F [Px H]]]]]]]].
  - rewrite E. unfold next_or_none. split.
    + intros id N. rewrite find_app_cases. cbn [find].
      destruct (find (is_node id) (node_id_wise_reponse self)); [reflexivity|].
      replace (is_node id _) with false; [reflexivity|].
      symmetry. unfold is_node. cbn [n_node_id]. apply String.eqb_neq. congruence.
    + rewrite find_app_cases, (find_none_of_Forall _ _ F). cbn [find].
      unfold is_node at 1. cbn [n_node_id]. rewrite String.eqb_refl.
      eexists. exists (pop_node_id e). repeat split.
      exists [], []. repeat split. constructor.
  - assert (Eid : n_node_id ex = node_id) by (apply String.eqb_eq, Px).
    assert (Hfind : next_or_none (is_node node_id) (node_id_wise_reponse self) = Some ex)
      by (rewrite En; apply find_of_split; assumption).
    assert (Hother : forall d id, id <> node_id ->
              next_or_none (is_node id) (l1 ++ set_utilization_detail d ex :: l2)
              = next_or_none (is_node id) (node_id_wise_reponse self)).
    { intros d id N. rewrite En. unfold next_or_none. rewrite !find_app_cases.
      destruct (find (is_node id) l1); [reflexivity|]. cbn [find].
      rewrite (is_node_other id node_id ex N Px).
      replace (is_node id (set_utilization_detail d ex)) with false; [reflexivity|].
      symmetry. apply (is_node_other id node_id); [exact N | exact Px]. }
    assert (Hself : forall d,
              next_or_none (is_node node_id) (l1 ++ set_utilization_detail d ex :: l2)
              = Some (set_utilization_detail d ex))
      by (intros d; apply find_of_split; assumption).
    rewrite Hfind.
    destruct H as [[Fd E]|[d1 [old [d2 [merged [Ed [Fd [Pold [M E]]]]]]]]]; rewrite E.
    + split; [apply Hother|]. rewrite Hself.
      eexists. exists (pop_node_id e). repeat split; try exact Eid.
      exists (utilization_detail ex), []. rewrite app_nil_r.
      split; [reflexivity|]. split; [exact Fd|].
      unfold next_or_none. rewrite (find_none_of_Forall _ _ Fd). repeat split.
    + split; [apply Hother|]. rewrite Hself.
      pose proof (merge_entries_fields _ _ _ M) as [Mn [_ [Mi _]]].
      eexists. exists merged. repeat split; try exact Eid; try assumption.
      exists d1, d2. split; [reflexivity|]. split; [exact Fd|].
      unfold next_or_none. rewrite Ed, (find_of_split _ _ _ _ Fd Pold).
      split; [reflexivity | exact M].
Qed.

End ReportFacts.

Module ContentFacts.
Import Report RunFacts PaginationFacts ReportFacts.

(** ** The (node_id, namespace) pairs of a report *)

Lemma report_pairs_app (a b : list node_record) :
  report_pairs (a ++ b) = report_pairs a ++ report_pairs b.
Proof. unfold report_pairs. apply flat_map_app. Qed.

Lemma report_pairs_cons (n : node_record) (l : list node_record) :
  report_pairs (n :: l)
  = map (fun e => (n_node_id n, e_namespace e)) (utilization_detail n)
    ++ report_pairs l.
Proof. reflexivity. Qed.

Lemma build_pairs (self self' : self_state) (node_id node_name : string)
    (e : utilization_entry) :
  build_node_id_wise_result self node_id node_name e = Ok self' ->
  forall p,
    In p (report_pairs (node_id_wise_reponse self'))
    <-> In p (report_pairs (node_id_wise_reponse self))
        \/ p = (node_id, e_namespace e).
Proof.
  intros H p. apply build_cases in H. cbn zeta in H.
  destruct H as [_ [[F E]|[l1 [ex [l2 [En [F [Px H]]]]]]]].
  - rewrite E, report_pairs_app, in_app_iff. cbn. intuition congruence.
  - assert (Eid : n_node_id ex = node_id) by (apply String.eqb_eq, Px).
    rewrite En.
    destruct H as [[Fd E]|[d1 [old [d2 [merged [Ed [Fd [Pold [M E]]]]]]]]];
      rewrite E, !report_pairs_app, !report_pairs_cons;
      cbn [set_utilization_detail n_node_id utilization_detail].
    + repeat (rewrite map_app || rewrite in_app_iff).
      cbn [map pop_node_id e_namespace In].
      rewrite Eid. intuition congruence.
    + pose proof (merge_entries_fields _ _ _ M) as [Mn _].
      cbn [pop_node_id e_namespace] in Mn.
      apply String.eqb_eq in Pold.
      rewrite Ed. repeat (rewrite map_app || rewrite in_app_iff).
      cbn [map In]. rewrite Mn, Pold, Eid. intuition congruence.
Qed.

Lemma report_pairs_NoDup (nodes : list node_record) :
  report_invariant nodes -> NoDup (report_pairs nodes).
Proof.
  unfold report_invariant, unique_nodes. intros [U N].
  induction nodes as [|n nodes IH]; [constructor|].
  cbn [map] in U. inversion U as [|? ? Hn U']; subst.
  inversion N as [|? ? Nn N']; subst.
  rewrite report_pairs_cons. apply NoDup_app.
  - unfold unique_namespaces in Nn. clear - Nn.
    induction (utilization_detail n) as [|e d IHd]; [constructor|].
    cbn [map] in *. inversion Nn as [|? ? He Nd]; subst.
    constructor; [|apply IHd, Nd].
    intros C. apply in_map_iff in C. destruct C as [e' [Ee Hin]].
    apply He. apply in_map_iff. exists e'. split; [congruence | exact Hin].
  - apply IH; assumption.
  - intros p Hp C. apply in_map_iff in Hp. destruct Hp as [e [Ep _]].
    unfold report_pairs in C. apply in_flat_map in C.
    destruct C as [m [Hm Hin]]. apply in_map_iff in Hin.
    destruct Hin as [e' [Ep' _]]. apply Hn. apply in_map_iff.
    exists m. split; [congruence | exact Hm].
Qed.

Lemma ingest_pairs (self self' : self_state) (r : usage_record) :
  ingest self r = Ok self' ->
  forall p,
    In p (report_pairs (node_id_wise_reponse self'))
    <-> In p (report_pairs (node_id_wise_reponse self)) \/ p = record_pair r.
Proof.
  unfold ingest.
  destruct (metric_usage_percentage self r) as [b|]; [|discriminate].
  cbn [bind].
  destruct (namespace_wise_utilization_dict r b) as [e|] eqn:N; [|discriminate].
  cbn [bind]. intros H p.
  apply namespace_wise_utilization_dict_fields in N. destruct N as [Nn _].
  rewrite (build_pairs _ _ _ _ _ H p), Nn. reflexivity.
Qed.

Lemma ingest_all_pairs (records : list usage_record) (self self' : self_state) :
  ingest_all self records = Ok self' ->
  forall p,
    In p (report_pairs (node_id_wise_reponse self'))
    <-> In p (report_pairs (node_id_wise_reponse self))
        \/ In p (map record_pair records).
Proof.
  revert self. induction records as [|r rest IH]; intros self H p.
  - inversion H; subst. cbn [map In]. tauto.
  - cbn [ingest_all] in H. destruct (ingest self r) as [s1|] eqn:E; [|discriminate H].
    cbn [bind] in H. rewrite (IH _ H p), (ingest_pairs _ _ _ E p).
    cbn [map In]. intuition congruence.
Qed.

(** ** The name of a node *)

Lemma build_name (self self' : self_state) (node_id node_name : string)
    (e : utilization_entry) :
  build_node_id_wise_result self node_id node_name e = Ok self' ->
  forall id,
    name_of (node_id_wise_reponse self') id
    = match name_of (node_id_wise_reponse self) id with
      | Some n => Some n
      | None => if String.eqb node_id id then Some node_name else None
      end.
Proof.
  intros H id. apply build_lookup in H. cbn zeta in H.
  destruct H as [Hother [node' [last [Hf [_ [Hname _]]]]]].
  unfold name_of. destruct (String.eqb node_id id) eqn:E.
  - apply String.eqb_eq in E. subst id. rewrite Hf. cbn [option_map].
    rewrite Hname.
    destruct (next_or_none (is_node node_id) (node_id_wise_reponse self));
      reflexivity.
  - apply String.eqb_neq in E. rewrite Hother by congruence.
    destruct (next_or_none (is_node id) (node_id_wise_reponse self));
      reflexivity.
Qed.

Lemma ingest_all_names (records : list usage_record) (self self' : self_state) :
  ingest_all self records = Ok self' ->
  forall id,
    name_of (node_id_wise_reponse self') id
    = match name_of (node_id_wise_reponse self) id with
      | Some n => Some n
      | None => first_name records id
      end.
Proof.
  revert self. induction records as [|r rest IH]; intros self H id.
  - inversion H; subst. unfold first_name. cbn [find option_map].
    destruct (name_of _ _); reflexivity.
  - cbn [ingest_all] in H. destruct (ingest self r) as [s1|] eqn:E; [|discriminate H].
    cbn [bind] in H. destruct (ingest_build _ _ _ E) as [e He].
    rewrite (IH _ H id), (build_name _ _ _ _ _ He id).
    unfold first_name. cbn [find].
    destruct (name_of (node_id_wise_reponse self) id); [reflexivity|].
    destruct (String.eqb (u_node_id r) id); reflexivity.
Qed.

(** ** The entries of the other namespaces *)

Lemma filter_none {A : Type} (p : A -> bool) (l : list A) :
  Forall (fun y => p y = false) l -> filter (fun y => negb (p y)) l = l.
Proof.
  induction 1 as [|y l Hy _ IH]; [reflexivity|].
  cbn [filter]. rewrite Hy, IH. reflexivity.
Qed.

Lemma unique_namespace_split (ns : string) (d1 d2 : list utilization_entry)
    (old : utilization_entry) :
  NoDup (map e_namespace (d1 ++ old :: d2)) ->
  in_namespace ns old = true ->
  Forall (fun y => in_namespace ns y = false) d2.
Proof.
  intros N P. apply String.eqb_eq in P.
  rewrite map_app in N. cbn [map] in N. apply NoDup_remove_2 in N.
  apply Forall_forall. intros y Hy. unfold in_namespace.
  apply String.eqb_neq. intros C. apply N. apply in_or_app. right.
  apply in_map_iff. exists y. split; [congruence | exact Hy].
Qed.

Lemma build_detail (self self' : self_state) (node_id node_name : string)
    (e : utilization_entry) :
  Forall unique_namespaces (node_id_wise_reponse self) ->
  build_node_id_wise_result self node_id node_name e = Ok self' ->
  (forall id, id <> node_id ->
     detail_of (node_id_wise_reponse self') id
     = detail_of (node_id_wise_reponse self) id)
  /\ exists last,
       e_namespace last = e_namespace e
       /\ detail_of (node_id_wise_reponse self') node_id
          = filter (fun y => negb (in_namespace (e_namespace e) y))
              (detail_of (node_id_wise_reponse self) node_id)
            ++ [last].
Proof.
  intros U H. apply build_lookup in H. cbn zeta in H.
  destruct H as [Hother [node' [last [Hf [_ [_ [Hns [_ [d1 [d2 [Hd [F1 Hc]]]]]]]]]]]].
  split.
  - intros id N. unfold detail_of. rewrite (Hother id N). reflexivity.
  - exists last. split; [exact Hns|]. unfold detail_of. rewrite Hf, Hd.
    destruct (next_or_none (is_node node_id) (node_id_wise_reponse self))
      as [ex|] eqn:Hn.
    + destruct (next_or_none (in_namespace (e_namespace e)) (utilization_detail ex))
        as [old|] eqn:Ho.
      * destruct Hc as [Ed _]. rewrite Ed.
        pose proof (find_some _ _ Ho) as [_ Pold].
        assert (F2 : Forall (fun y => in_namespace (e_namespace e) y = false) d2).
        { apply (unique_namespace_split _ d1 d2 old); [|exact Pold].
          rewrite <- Ed. rewrite Forall_forall in U.
          exact (U ex (proj1 (find_some _ _ Hn))). }
        rewrite filter_app. cbn [filter]. rewrite Pold. cbn [negb].
        rewrite (filter_none _ _ F1), (filter_none _ _ F2). reflexivity.
      * destruct Hc as [Ed [E2 _]]. subst d2. rewrite app_nil_r, Ed.
        rewrite (filter_none _ _ F1). reflexivity.
    + destruct Hc as [E1 [E2 _]]. subst. reflexivity.
Qed.

End ContentFacts.

Module SchemaFacts.
Import Report RunFacts PaginationFacts ReportFacts ContentFacts.

(** ** What holds of a state after every ingest *)

Lemma ingest_all_preserves (P : self_state -> Prop) :
  (forall self self' r, P self -> ingest self r = Ok self' -> P self') ->
  forall records self self',
    P self -> ingest_all self records = Ok self' -> P self'.
Proof.
  intros Step. induction records as [|r rest IH]; intros self self' HP H.
  - inversion H; subst. exact HP.
  - cbn [ingest_all] in H. destruct (ingest self r) as [s1|] eqn:E; [|discriminate H].
    cbn [bind] in H. eapply IH; [|exact H]. eapply Step; eassumption.
Qed.

Lemma request_preserves (P : self_state -> Prop) :
  (forall self self' r, P self -> ingest self r = Ok self' -> P self') ->
  forall replies self self',
    P self -> request_openshift_report_api self replies = Ok self' -> P self'.
Proof.
  intros Step. induction replies as [|reply later IH]; intros self self' HP H.
  - inversion H; subst. exact HP.
  - cbn [request_openshift_report_api] in H.
    destruct (Z.eqb _ _); [|inversion H; subst; exact HP].
    destruct (ingest_all self (response reply)) as [s1|] eqn:E; [|discriminate H].
    cbn [bind] in H.
    pose proof (ingest_all_preserves P Step _ _ _ HP E) as HP1.
    destruct (next_token reply); [eapply IH; eassumption|].
    inversion H; subst. exact HP1.
Qed.

(** ** The schema of the stored entries *)

Lemma merge_entries_schema (old new merged : utilization_entry) :
  merge_entries old new = Ok merged -> entry_schema merged.
Proof.
  intros H. apply merge_entries_fields in H.
  destruct H as [_ [Hu [_ [D M]]]]. unfold entry_schema.
  split; [|split; assumption].
  rewrite merge_details_eq in D.
  destruct (sum_rounded _ _ "cpu_usage_percentage"); [|discriminate].
  destruct (sum_rounded _ _ "memory_usage_percentage"); [|discriminate].
  destruct (sum_rounded _ _ "cpu_request_percentage"); [|discriminate].
  destruct (sum_rounded _ _ "memory_request_percentage"); [|discriminate].
  cbn [bind] in D. inversion D as [D']. reflexivity.
Qed.

Lemma build_schema (self self' : self_state) (node_id node_name : string)
    (e : utilization_entry) :
  entry_schema (pop_node_id e) ->
  report_schema (node_id_wise_reponse self) ->
  build_node_id_wise_result self node_id node_name e = Ok self' ->
  report_schema (node_id_wise_reponse self').
Proof.
  unfold report_schema. intros Se K H. apply build_cases in H. cbn zeta in H.
  destruct H as [_ [[F E]|[l1 [ex [l2 [En [F [Px H]]]]]]]].
  - rewrite E. apply Forall_app. split; [exact K|].
    constructor; [|constructor]. cbn [utilization_detail].
    constructor; [exact Se | constructor].
  - rewrite En in K. apply Forall_app in K. destruct K as [K1 K2].
    inversion K2 as [|? ? Kex K2']; subst.
    destruct H as [[Fd E]|[d1 [old [d2 [merged [Ed [Fd [Pold [M E]]]]]]]]];
      rewrite E; apply Forall_app; (split; [exact K1|]);
      (constructor; [|exact K2']); cbn [set_utilization_detail utilization_detail].
    + apply Forall_app. split; [exact Kex|].
      constructor; [exact Se | constructor].
    + apply merge_entries_schema in M.
      rewrite Ed in Kex. apply Forall_app in Kex. destruct Kex as [Kd1 Kd2].
      inversion Kd2; subst.
      apply Forall_app. split; [apply Forall_app; split; assumption|].
      constructor; [exact M | constructor].
Qed.

Lemma ingest_schema (self self' : self_state) (r : usage_record) :
  report_schema (node_id_wise_reponse self) ->
  ingest self r = Ok self' ->
  report_schema (node_id_wise_reponse self').
Proof.
  intros K. unfold ingest.
  destruct (metric_usage_percentage self r) as [p|] eqn:M; [|discriminate].
  cbn [bind].
  destruct (capacity_details_of self r) as [c|] eqn:Hc;
    [|rewrite (metric_usage_percentage_orphan _ _ Hc) in M; discriminate M].
  destruct (metric_usage_percentage_total self r c Hc) as [v1 [v2 [v3 [v4 [E _]]]]].
  rewrite E in M. inversion M; subst p.
  unfold namespace_wise_utilization_dict. cbn [bundle values map snd max bind].
  intros H. eapply build_schema; [|exact K|exact H].
  unfold entry_schema. cbn. repeat split.
Qed.

(** ** [max] and NaN *)

Lemma max_step_nan (m item : float) : is_nan (max_step m item) = is_nan m.
Proof.
  unfold max_step, fgt, flt.
  destruct (is_nan m) eqn:Nm; cbn [negb andb].
  - exact Nm.
  - destruct (is_nan item) eqn:Ni; cbn [negb andb]; [exact Nm|].
    destruct (fle item m); cbn [negb]; assumption.
Qed.

Lemma max_nan (x u : float) (l : list float) :
  max (x :: l) = Ok u -> is_nan u = is_nan x.
Proof.
  cbn [max]. intros H. inversion H as [Hu]. clear H Hu.
  revert x. induction l as [|y l IH]; intros x; [reflexivity|].
  cbn [fold_left]. rewrite IH. apply max_step_nan.
Qed.

Lemma schema_nan (e : utilization_entry) :
  entry_schema e ->
  is_nan (e_utilization e)
  = is_nan (get (e_details e) "cpu_usage_percentage" (Z2F 0)).
Proof.
  intros [K [_ M]]. unfold keys, percentage_keys in K.
  destruct (e_details e) as [|[k1 v1] [|[k2 v2] [|[k3 v3] [|[k4 v4] [|? ?]]]]];
    try discriminate K.
  cbn [map fst] in K. inversion K; subst.
  cbn [values map snd] in M. rewrite (max_nan _ _ _ M). reflexivity.
Qed.

End SchemaFacts.

Module PercentageFacts.
Import Report RunFacts.

(** ** Rounding depends on the value of the rational only *)

Lemma ilog2_unique (q : Q) (k : Z) :
  (0 < q)%Q -> (pow2 k <= q)%Q -> (q < pow2 (k + 1))%Q -> ilog2 q = k.
Proof.
  intros Hq L U. pose proof (ilog2_spec q Hq) as [L' U'].
  destruct (Z.lt_trichotomy (ilog2 q) k) as [C|[C|C]]; [|exact C|]; exfalso.
  - pose proof (pow2_le (ilog2 q + 1) k ltac:(lia)). lra.
  - pose proof (pow2_le (k + 1) (ilog2 q) ltac:(lia)). lra.
Qed.

Lemma rne_Qeq (p q : Q) : (p == q)%Q -> rne p = rne q.
Proof.
  intros H. apply Z.le_antisymm; apply rne_mono; rewrite H; apply Qle_refl.
Qed.

Lemma round_pos_Qeq (p q : Q) :
  (p == q)%Q -> (0 < p)%Q -> round_pos p = round_pos q.
Proof.
  intros H Hp. assert (Hq : (0 < q)%Q) by (rewrite <- H; exact Hp).
  pose proof (ilog2_spec q Hq) as [L U].
  assert (E : ilog2 p = ilog2 q)
    by (apply ilog2_unique; [exact Hp | rewrite H; exact L | rewrite H; exact U]).
  unfold round_pos. rewrite E. f_equal.
  apply rne_Qeq. rewrite H. reflexivity.
Qed.

Lemma round_q_Qeq (zs : bool) (p q : Q) :
  (p == q)%Q -> round_q zs p = round_q zs q.
Proof.
  intros H. unfold round_q.
  destruct (Qcompare_spec p 0) as [A|A|A];
  destruct (Qcompare_spec q 0) as [B|B|B];
    try (exfalso; rewrite H in A; lra); try reflexivity.
  - f_equal. apply round_pos_Qeq; [rewrite H; reflexivity | lra].
  - f_equal. apply round_pos_Qeq; [exact H | exact A].
Qed.

(** ** A usage that is the capacity *)

Lemma fdiv_self (x : float) :
  is_finite x = true -> is_zero x = false -> fdiv x x = Z2F 1.
Proof.
  destruct x as [s|s| |s m e]; intros F Z; try discriminate.
  unfold fdiv. cbn [sign F2Q]. pose proof (mag_pos m e) as P.
  rewrite (round_q_Qeq _ _ 1).
  - destruct s; vm_compute; reflexivity.
  - destruct s; field; lra.
Qed.

Lemma convert_other (x : float) (unit : string) :
  unit <> "milicores" -> unit <> "MiB" -> convert x unit = Ok x.
Proof.
  intros N1 N2. rewrite convert_eq.
  apply String.eqb_neq in N1, N2. rewrite N1, N2. reflexivity.
Qed.

Lemma calculate_percentage_self (capacity : float) (cu unit : string) :
  is_finite capacity = true -> is_zero capacity = false ->
  unit <> "milicores" -> unit <> "MiB" ->
  calculate_percentage capacity capacity cu unit = Ok (Z2F 100).
Proof.
  intros F Z N1 N2. unfold calculate_percentage, float_of.
  rewrite (convert_other _ _ N1 N2). cbn [bind]. unfold truediv. rewrite Z.
  cbn [bind]. rewrite (fdiv_self _ F Z). vm_compute. reflexivity.
Qed.

(** ** A greater capacity *)

Lemma fdiv_antitone (x : float) (m1 m2 : positive) (e1 e2 : Z) :
  nonneg x = true ->
  fle (S754_finite false m1 e1) (S754_finite false m2 e2) = true ->
  fle (fdiv x (S754_finite false m2 e2)) (fdiv x (S754_finite false m1 e1)) = true.
Proof.
  intros Nx H. apply fle_finite_Qle in H; [|reflexivity|reflexivity].
  cbn [F2Q] in H. pose proof (mag_pos m1 e1) as P1. pose proof (mag_pos m2 e2) as P2.
  destruct x as [s|[|]| |s m e]; try discriminate Nx.
  - rewrite !fdiv_finite by reflexivity. apply round_q_mono. cbn [F2Q].
    unfold Qdiv. rewrite !Qmult_0_l. apply Qle_refl.
  - rewrite !fdiv_inf. reflexivity.
  - assert (Hs : s = false).
    { destruct s; [|reflexivity]. exfalso. unfold nonneg, fle in Nx. cbn [F2Q] in Nx.
      apply Qle_bool_iff in Nx. pose proof (mag_pos m e). lra. }
    subst s. rewrite !fdiv_finite by reflexivity. apply round_q_mono. cbn [F2Q].
    pose proof (mag_pos m e) as P.
    apply Qle_shift_div_r; [exact P2|].
    assert (T0 : (0 <= mag m e / mag m1 e1)%Q)
      by (apply Qle_shift_div_l; [exact P1 | rewrite Qmult_0_l; lra]).
    assert (T1 : (mag m e / mag m1 e1 * mag m1 e1 == mag m e)%Q)
      by (field; lra).
    set (t := (mag m e / mag m1 e1)%Q) in *. nra.
Qed.

Lemma convert_nonneg (usage usage' : float) (unit : string) :
  nonneg usage = true -> convert usage unit = Ok usage' -> nonneg usage' = true.
Proof.
  intros N C. unfold nonneg in *.
  eapply convert_mono; [exact N | apply convert_zero | exact C].
Qed.

Lemma calculate_percentage_antitone
    (capacity1 capacity2 usage : float) (cu unit : string) :
  is_finite capacity1 = true -> is_finite capacity2 = true ->
  fgt capacity1 (Z2F 0) = true -> fle capacity1 capacity2 = true ->
  nonneg usage = true ->
  exists p1 p2,
    calculate_percentage capacity1 usage cu unit = Ok p1
    /\ calculate_percentage capacity2 usage cu unit = Ok p2
    /\ fle p2 p1 = true.
Proof.
  intros F1 F2 G1 H N.
  destruct (positive_finite capacity1 F1 G1) as [m1 [e1 ->]].
  assert (G2 : fgt capacity2 (Z2F 0) = true).
  { unfold fgt, flt in *. change (Z2F 0) with (S754_zero false) in *.
    cbn [is_nan negb andb] in G1 |- *.
    rewrite (finite_not_nan _ F2). cbn [negb andb].
    apply negb_true_iff in G1. apply negb_true_iff.
    destruct (fle capacity2 (S754_zero false)) eqn:C; [|reflexivity].
    rewrite (fle_trans _ _ _ H C) in G1. discriminate G1. }
  destruct (positive_finite capacity2 F2 G2) as [m2 [e2 ->]].
  destruct (calculate_percentage_nonzero (S754_finite false m1 e1) usage cu unit eq_refl)
    as [u1 [p1 [C1 [R1 E1]]]].
  destruct (calculate_percentage_nonzero (S754_finite false m2 e2) usage cu unit eq_refl)
    as [u2 [p2 [C2 [R2 E2]]]].
  rewrite C1 in C2. inversion C2; subst u2.
  exists p1, p2. repeat split; try assumption.
  eapply float_round_mono; [|exact R2|exact R1].
  rewrite Z2F_100. apply fmul_mono, fdiv_antitone; [|exact H].
  eapply convert_nonneg; eassumption.
Qed.

(** ** NaN goes through *)

Lemma calculate_percentage_nan (capacity usage : float) (cu unit : string) :
  is_zero capacity = false ->
  is_nan capacity || is_nan usage = true ->
  calculate_percentage capacity usage cu unit = Ok S754_nan.
Proof.
  intros Z H. unfold calculate_percentage, float_of.
  rewrite convert_eq. cbn [bind]. unfold truediv. rewrite Z. cbn [bind].
  assert (E : fdiv (if String.eqb unit "milicores" then fdiv usage (Z2F 1000)
                    else if String.eqb unit "MiB" then fdiv usage (Z2F 1024)
                    else usage) capacity = S754_nan).
  { destruct capacity as [s|s| |s m e]; try discriminate Z.
    - cbn [is_nan orb] in H. destruct usage; try discriminate H.
      rewrite Z2F_1000, Z2F_1024.
      destruct (String.eqb unit "milicores"); [reflexivity|].
      destruct (String.eqb unit "MiB"); reflexivity.
    - destruct (if String.eqb unit "milicores" then _ else _); reflexivity.
    - cbn [is_nan orb] in H. destruct usage; try discriminate H.
      rewrite Z2F_1000, Z2F_1024.
      destruct (String.eqb unit "milicores"); [reflexivity|].
      destruct (String.eqb unit "MiB"); reflexivity. }
  rewrite E. reflexivity.
Qed.

End PercentageFacts.

(* ================================================================== *)
(** * Further properties, stated *)
(* ================================================================== *)

Import Report ReportExamples RunFacts PaginationFacts ReportFacts ContentFacts
       SchemaFacts PercentageFacts.

(** ** The percentage calculator *)

(** X1.  [__calculate_percentage] never raises on floats: the division
    by a zero capacity is caught, and [round] to four places does not
    overflow on a product of floats. *)
Theorem percentage_never_raises :
  forall (capacity actual_usage : float) (capacity_unit actual_usage_unit : string),
  exists percentage,
    calculate_percentage capacity actual_usage capacity_unit actual_usage_unit
    = Ok percentage.
Proof. intros. apply calculate_percentage_total. Qed.

(** X2.  A usage that is the capacity, finite and not zero, in a unit
    that is not converted, is 100.0 percent exactly. *)
Theorem full_usage_is_100_percent :
  forall (capacity : float) (capacity_unit actual_usage_unit : string),
    is_finite capacity = true ->
    is_zero capacity = false ->
    actual_usage_unit <> "milicores" ->
    actual_usage_unit <> "MiB" ->
    calculate_percentage capacity capacity capacity_unit actual_usage_unit
    = Ok (Z2F 100).
Proof. intros. apply calculate_percentage_self; assumption. Qed.

Lemma full_usage_is_100_percent_witness :
  is_finite (round_q false (37 # 10)) = true
  /\ is_zero (round_q false (37 # 10)) = false
  /\ "cores" <> "milicores"
  /\ "cores" <> "MiB"
  /\ calculate_percentage (round_q false (37 # 10)) (round_q false (37 # 10))
       "cores" "cores"
     = Ok (Z2F 100).
Proof.
  split; [reflexivity|]. split; [reflexivity|].
  split; [discriminate|]. split; [discriminate|].
  apply (full_usage_is_100_percent (round_q false (37 # 10)) "cores" "cores");
    [reflexivity | reflexivity | discriminate | discriminate].
Defined.

(** X3.  A usage between zero and a finite capacity greater than zero,
    in a unit that is not converted, gives a percentage between 0.0 and
    100.0. *)
Theorem usage_within_capacity_is_within_100 :
  forall (capacity actual_usage : float) (capacity_unit actual_usage_unit : string),
    is_finite capacity = true ->
    fgt capacity (Z2F 0) = true ->
    nonneg actual_usage = true ->
    fle actual_usage capacity = true ->
    actual_usage_unit <> "milicores" ->
    actual_usage_unit <> "MiB" ->
    exists percentage,
      calculate_percentage capacity actual_usage capacity_unit actual_usage_unit
      = Ok percentage
      /\ nonneg percentage = true
      /\ fle percentage (Z2F 100) = true.
Proof.
  intros capacity usage cu unit F G N H N1 N2.
  destruct (positive_finite capacity F G) as [m [e Ec]].
  destruct (calculate_percentage_mono capacity usage capacity cu unit F G H)
    as [p1 [p2 [E1 [E2 L]]]].
  rewrite calculate_percentage_self in E2;
    [| exact F | rewrite Ec; reflexivity | exact N1 | exact N2].
  inversion E2; subst p2.
  destruct (calculate_percentage_nonneg capacity usage cu unit F) as [v [Ev [Pv _]]];
    [rewrite Ec; unfold nonneg, fle; cbn [F2Q]; apply Qle_bool_iff;
     pose proof (mag_pos m e); lra | exact N |].
  rewrite E1 in Ev. inversion Ev; subst v.
  exists p1. repeat split; assumption.
Qed.

Lemma usage_within_capacity_is_within_100_witness :
  is_finite (Z2F 8) = true
  /\ fgt (Z2F 8) (Z2F 0) = true
  /\ nonneg (Z2F 3) = true
  /\ fle (Z2F 3) (Z2F 8) = true
  /\ exists percentage,
       calculate_percentage (Z2F 8) (Z2F 3) "GB" "GB" = Ok percentage
       /\ nonneg percentage = true
       /\ fle percentage (Z2F 100) = true.
Proof.
  split; [reflexivity|]. split; [reflexivity|].
  split; [reflexivity|]. split; [reflexivity|].
  apply (usage_within_capacity_is_within_100 (Z2F 8) (Z2F 3) "GB" "GB");
    [reflexivity | reflexivity | reflexivity | reflexivity
     | discriminate | discriminate].
Defined.

(** X4.  For a usage that is not negative, the percentage does not grow
    with the capacity: of two finite capacities greater than zero, the
    greater gives the percentage that is not the greater. *)
Theorem percentage_decreases_with_capacity :
  forall (capacity1 capacity2 actual_usage : float)
         (capacity_unit actual_usage_unit : string),
    is_finite capacity1 = true ->
    is_finite capacity2 = true ->
    fgt capacity1 (Z2F 0) = true ->
    fle capacity1 capacity2 = true ->
    nonneg actual_usage = true ->
    exists p1 p2,
      calculate_percentage capacity1 actual_usage capacity_unit actual_usage_unit
      = Ok p1
      /\ calculate_percentage capacity2 actual_usage capacity_unit actual_usage_unit
         = Ok p2
      /\ fle p2 p1 = true.
Proof. intros. apply calculate_percentage_antitone; assumption. Qed.

Lemma percentage_decreases_with_capacity_witness :
  is_finite (Z2F 4) = true
  /\ is_finite (Z2F 8) = true
  /\ fgt (Z2F 4) (Z2F 0) = true
  /\ fle (Z2F 4) (Z2F 8) = true
  /\ nonneg (Z2F 2000) = true
  /\ exists p1 p2,
       calculate_percentage (Z2F 4) (Z2F 2000) "cores" "milicores" = Ok p1
       /\ calculate_percentage (Z2F 8) (Z2F 2000) "cores" "milicores" = Ok p2
       /\ fle p2 p1 = true.
Proof.
  split; [reflexivity|]. split; [reflexivity|]. split; [reflexivity|].
  split; [reflexivity|]. split; [reflexivity|].
  apply (percentage_decreases_with_capacity (Z2F 4) (Z2F 8) (Z2F 2000)
           "cores" "milicores"); reflexivity.
Defined.

(** X5.  A NaN goes through: when the capacity or the usage is NaN, and
    the capacity is not zero, the percentage is NaN; nothing is raised
    and nothing is replaced by 0.0. *)
Theorem nan_goes_through_the_percentage :
  forall (capacity actual_usage : float) (capacity_unit actual_usage_unit : string),
    is_zero capacity = false ->
    is_nan capacity || is_nan actual_usage = true ->
    calculate_percentage capacity actual_usage capacity_unit actual_usage_unit
    = Ok S754_nan.
Proof. intros. apply calculate_percentage_nan; assumption. Qed.

Lemma nan_goes_through_the_percentage_witness :
  is_zero (Z2F 4) = false
  /\ is_nan (Z2F 4) || is_nan S754_nan = true
  /\ calculate_percentage (Z2F 4) S754_nan "cores" "milicores" = Ok S754_nan.
Proof.
  split; [reflexivity|]. split; [reflexivity|].
  apply (nan_goes_through_the_percentage (Z2F 4) S754_nan "cores" "milicores");
    reflexivity.
Defined.

(** ** The capacity index *)



(** X7.  The first capacity record of a key is the one that counts:
    capacity records that come after it, with the same key or not, leave
    the bundle of a usage record as it is. *)
Theorem first_capacity_record_wins :
  forall (self : self_state) (metrics : usage_record)
         (capacity_details : capacity_record) (more : list capacity_record),
    capacity_details_of self metrics = Some capacity_details ->
    metric_usage_percentage
      (set_capacity_map_array self (capacity_map_array self ++ more)) metrics
    = metric_usage_percentage self metrics.
Proof.
  intros self metrics c more H.
  unfold metric_usage_percentage.
  replace (capacity_details_of
             (set_capacity_map_array self (capacity_map_array self ++ more)) metrics)
    with (capacity_details_of self metrics); [reflexivity|].
  unfold capacity_details_of, next_or_none in *.
  cbn [set_capacity_map_array capacity_map_array].
  rewrite find_app_cases, H. reflexivity.
Qed.

Lemma first_capacity_record_wins_witness :
  capacity_details_of loaded usage_script_units = Some capacity_n1
  /\ metric_usage_percentage
       (set_capacity_map_array loaded
          (capacity_map_array loaded ++ [capacity_n1_again]))
       usage_script_units
     = metric_usage_percentage loaded usage_script_units.
Proof.
  split; [reflexivity|].
  apply (first_capacity_record_wins loaded usage_script_units capacity_n1
           [capacity_n1_again]). reflexivity.
Defined.

(** ** A run *)





(** X10.  The usage request reads its pages in order up to the reply
    that stops the loop, the first one that failed or has no next token:
    it is the ingestion of the records of the pages before it and, when
    it did not fail, of its own.  A failed reply raises nothing, what was
    ingested stays; the replies after the stop are not read. *)
Theorem usage_pages_are_read_until_the_stop :
  forall (self : self_state) (pages : list (api_reply usage_record))
         (stop : api_reply usage_record) (later : list (api_reply usage_record)),
    Forall page_with_next pages ->
    status_code stop <> 200%Z \/ next_token stop = None ->
    request_openshift_report_api self (pages ++ stop :: later)
    = ingest_all self
        (records_of pages
         ++ (if Z.eqb (status_code stop) 200 then response stop else [])).
Proof.
  intros self pages stop later Hp Hs.
  rewrite (request_pages pages (stop :: later) self Hp), ingest_all_app.
  destruct (ingest_all self (records_of pages)) as [s|err]; [|reflexivity].
  cbn [bind request_openshift_report_api].
  destruct (Z.eqb (status_code stop) 200) eqn:E; [|reflexivity].
  destruct Hs as [Hs|Hs]; [apply Z.eqb_eq in E; contradiction|].
  rewrite Hs. destruct (ingest_all s (response stop)); reflexivity.
Qed.

Lemma usage_pages_are_read_until_the_stop_witness :
  Forall page_with_next [usage_page_first]
  /\ (status_code usage_reply_failed <> 200%Z
      \/ next_token usage_reply_failed = None)
  /\ request_openshift_report_api loaded
       ([usage_page_first] ++ usage_reply_failed :: [usage_page_last])
     = ingest_all loaded [usage_script_units].
Proof.
  assert (Hp : Forall page_with_next [usage_page_first])
    by (repeat constructor; discriminate).
  assert (Hs : status_code usage_reply_failed <> 200%Z
               \/ next_token usage_reply_failed = None)
    by (left; discriminate).
  split; [exact Hp|]. split; [exact Hs|].
  exact (usage_pages_are_read_until_the_stop loaded [usage_page_first]
           usage_reply_failed [usage_page_last] Hp Hs).
Defined.

(** X11.  The capacity request does the same: the capacity index is the
    one before, followed by the records of the pages read, in order; the
    rest of [self] is untouched, and a failed reply keeps what was
    saved. *)
Theorem capacity_pages_are_saved_until_the_stop :
  forall (self : self_state) (pages : list (api_reply capacity_record))
         (stop : api_reply capacity_record)
         (later : list (api_reply capacity_record)),
    Forall page_with_next pages ->
    status_code stop <> 200%Z \/ next_token stop = None ->
    save_capacity_data self (pages ++ stop :: later)
    = set_capacity_map_array self
        (capacity_map_array self
         ++ records_of pages
         ++ (if Z.eqb (status_code stop) 200 then response stop else [])).
Proof.
  intros self pages stop later Hp Hs.
  rewrite (save_pages pages (stop :: later) self Hp).
  cbn [save_capacity_data]. destruct self as [ns nodes caps].
  cbn [set_capacity_map_array capacity_map_array name_space_wise_response
       node_id_wise_reponse].
  destruct (Z.eqb (status_code stop) 200) eqn:E.
  - destruct Hs as [Hs|Hs]; [apply Z.eqb_eq in E; contradiction|].
    rewrite Hs. cbn [set_capacity_map_array capacity_map_array
      name_space_wise_response node_id_wise_reponse].
    rewrite app_assoc. reflexivity.
  - rewrite app_nil_r. reflexivity.
Qed.

Lemma capacity_pages_are_saved_until_the_stop_witness :
  Forall page_with_next [capacity_page_first]
  /\ (status_code capacity_reply <> 200%Z \/ next_token capacity_reply = None)
  /\ save_capacity_data init
       ([capacity_page_first] ++ capacity_reply :: [capacity_reply_failed])
     = set_capacity_map_array init
         (response capacity_page_first ++ [capacity_n1]).
Proof.
  assert (Hp : Forall page_with_next [capacity_page_first])
    by (repeat constructor; discriminate).
  assert (Hs : status_code capacity_reply <> 200%Z
               \/ next_token capacity_reply = None)
    by (right; reflexivity).
  split; [exact Hp|]. split; [exact Hs|].
  exact (capacity_pages_are_saved_until_the_stop init [capacity_page_first]
           capacity_reply [capacity_reply_failed] Hp Hs).
Defined.

(** X12.  The usage request writes the node records only: the capacity
    index is the one it started with, and [name_space_wise_response]
    stays as it was (the one method that appends to it is never
    called). *)
Theorem request_writes_the_node_records_only :
  forall (self self' : self_state) (replies : list (api_reply usage_record)),
    request_openshift_report_api self replies = Ok self' ->
    capacity_map_array self' = capacity_map_array self
    /\ name_space_wise_response self' = name_space_wise_response self.
Proof.
  intros self self' replies H.
  apply (request_preserves
           (fun s => capacity_map_array s = capacity_map_array self
                     /\ name_space_wise_response s = name_space_wise_response self))
    with (replies := replies) (self := self); [| split; reflexivity | exact H].
  intros s s' r [C N] E. destruct (ingest_frame _ _ _ E) as [C' N'].
  split; congruence.
Qed.

Lemma request_writes_the_node_records_only_witness :
  (exists self',
      request_openshift_report_api loaded [usage_page_first; usage_page_last]
      = Ok self'
      /\ capacity_map_array self' = [capacity_n1]
      /\ name_space_wise_response self' = []).
Proof.
  destruct (request_openshift_report_api loaded [usage_page_first; usage_page_last])
    as [s|e] eqn:E; [|vm_compute in E; discriminate E].
  exists s. split; [reflexivity|].
  exact (request_writes_the_node_records_only loaded s _ E).
Defined.

(** ** The report *)

(** X13.  The report of a run has an entry for a node_id and a namespace
    exactly when a record of the run has them, and it has one entry
    only: no pair is lost, none is made up, none comes twice. *)
Theorem report_pairs_are_the_record_pairs :
  forall (capacity_replies : list (api_reply capacity_record))
         (records : list usage_record) (self' : self_state),
    ingest_all (save_capacity_data init capacity_replies) records = Ok self' ->
    NoDup (report_pairs (node_id_wise_reponse self'))
    /\ forall pair,
         In pair (report_pairs (node_id_wise_reponse self'))
         <-> In pair (map record_pair records).
Proof.
  intros capacity_replies records self' H. split.
  - apply report_pairs_NoDup.
    eapply (ingest_all_invariant report_invariant); [|..|exact H].
    + intros. eapply build_report_invariant; eassumption.
    + rewrite save_capacity_data_nodes. split; constructor.
  - intros pair. rewrite (ingest_all_pairs _ _ _ H pair), save_capacity_data_nodes.
    cbn [init node_id_wise_reponse].
    change (report_pairs []) with (@nil (string * string)).
    cbn [In]. tauto.
Qed.

Lemma report_pairs_are_the_record_pairs_witness :
  (exists self',
      ingest_all (save_capacity_data init [capacity_reply])
        [usage_script_units; usage_second]
      = Ok self'
      /\ NoDup (report_pairs (node_id_wise_reponse self'))
      /\ forall pair,
           In pair (report_pairs (node_id_wise_reponse self'))
           <-> In pair [("n1", "ns1"); ("n1", "ns1")]).
Proof.
  destruct (ingest_all (save_capacity_data init [capacity_reply])
              [usage_script_units; usage_second]) as [s|e] eqn:E;
    [|vm_compute in E; discriminate E].
  exists s. split; [reflexivity|].
  exact (report_pairs_are_the_record_pairs [capacity_reply] _ s E).
Defined.

(** X14.  The name of a node record is the node_name of the first record
    of its node_id: a later record with another node_name does not
    rename the node. *)
Theorem node_name_is_the_first_seen :
  forall (capacity_replies : list (api_reply capacity_record))
         (records : list usage_record) (self' : self_state),
    ingest_all (save_capacity_data init capacity_replies) records = Ok self' ->
    forall node_id,
      name_of (node_id_wise_reponse self') node_id = first_name records node_id.
Proof.
  intros capacity_replies records self' H node_id.
  rewrite (ingest_all_names _ _ _ H node_id), save_capacity_data_nodes.
  reflexivity.
Qed.

Lemma node_name_is_the_first_seen_witness :
  (exists self',
      ingest_all loaded_two [usage_script_units; usage_other_namespace] = Ok self'
      /\ name_of (node_id_wise_reponse self') "n1" = Some "node-a").
Proof.
  destruct (ingest_all loaded_two [usage_script_units; usage_other_namespace])
    as [s|e] eqn:E; [|vm_compute in E; discriminate E].
  exists s. split; [reflexivity|].
  exact (node_name_is_the_first_seen _ _ s E "n1").
Defined.

(** X15.  In a run, the ingestion of a record touches one node and one
    namespace: the entries of the other nodes stay as they are, and so
    do, in their order, the entries that the node of the record has for
    the other namespaces; the entry for the namespace of the record
    comes last. *)
Theorem ingest_touches_one_node_and_namespace :
  forall (capacity_replies : list (api_reply capacity_record))
         (records : list usage_record) (self self' : self_state)
         (result : usage_record),
    ingest_all (save_capacity_data init capacity_replies) records = Ok self ->
    ingest self result = Ok self' ->
    (forall node_id, node_id <> u_node_id result ->
       detail_of (node_id_wise_reponse self') node_id
       = detail_of (node_id_wise_reponse self) node_id)
    /\ exists last,
         e_namespace last = u_namespace result
         /\ detail_of (node_id_wise_reponse self') (u_node_id result)
            = filter (fun item => negb (in_namespace (u_namespace result) item))
                (detail_of (node_id_wise_reponse self) (u_node_id result))
              ++ [last].
Proof.
  intros capacity_replies records self self' r Hrun H.
  assert (I : report_invariant (node_id_wise_reponse self)).
  { eapply (ingest_all_invariant report_invariant); [|..|exact Hrun].
    - intros. eapply build_report_invariant; eassumption.
    - rewrite save_capacity_data_nodes. split; constructor. }
  unfold ingest in H.
  destruct (metric_usage_percentage self r) as [b|]; [|discriminate H].
  cbn [bind] in H.
  destruct (namespace_wise_utilization_dict r b) as [e|] eqn:N; [|discriminate H].
  cbn [bind] in H.
  apply namespace_wise_utilization_dict_fields in N. destruct N as [Nn _].
  destruct (build_detail _ _ _ _ _ (proj2 I) H) as [Ho [last [Hl Hd]]].
  rewrite Nn in *. split; [exact Ho|]. exists last. split; assumption.
Qed.

Lemma ingest_touches_one_node_and_namespace_witness :
  (exists self',
      ingest_all (save_capacity_data init [capacity_reply]) [usage_script_units]
      = Ok after_first
      /\ ingest after_first usage_second = Ok self'
      /\ exists last,
           e_namespace last = "ns1"
           /\ detail_of (node_id_wise_reponse self') "n1" = [last]).
Proof.
  assert (E : ingest_all (save_capacity_data init [capacity_reply])
                [usage_script_units] = Ok after_first)
    by (vm_compute; reflexivity).
  destruct (ingest after_first usage_second) as [s'|e] eqn:E';
    [|vm_compute in E'; discriminate E'].
  exists s'. split; [exact E|]. split; [reflexivity|].
  destruct (ingest_touches_one_node_and_namespace [capacity_reply]
              [usage_script_units] after_first s' usage_second E E')
    as [_ [last [Hn Hd]]].
  exists last. split; [exact Hn | exact Hd].
Defined.

(** X16.  Every entry stored in a run has the same shape: its details
    have the four percentage keys, in their order, and no other; its
    utilization_unit is "percent"; its utilization is the [max] of the
    values of its details. *)
Theorem stored_entries_have_the_schema :
  forall (capacity_replies : list (api_reply capacity_record))
         (records : list usage_record) (self' : self_state),
    ingest_all (save_capacity_data init capacity_replies) records = Ok self' ->
    report_schema (node_id_wise_reponse self').
Proof.
  intros capacity_replies records self' H.
  apply (ingest_all_preserves
           (fun s => report_schema (node_id_wise_reponse s)))
    with (records := records) (self := save_capacity_data init capacity_replies);
    [| rewrite save_capacity_data_nodes; constructor | exact H].
  intros s s' r K E. eapply ingest_schema; eassumption.
Qed.

Lemma stored_entries_have_the_schema_witness :
  (exists self',
      ingest_all (save_capacity_data init [capacity_reply])
        [usage_script_units; usage_second]
      = Ok self'
      /\ report_schema (node_id_wise_reponse self')).
Proof.
  destruct (ingest_all (save_capacity_data init [capacity_reply])
              [usage_script_units; usage_second]) as [s|e] eqn:E;
    [|vm_compute in E; discriminate E].
  exists s. split; [reflexivity|].
  exact (stored_entries_have_the_schema [capacity_reply] _ s E).
Defined.

(** X17.  The utilization of a stored entry is NaN exactly when its
    cpu_usage_percentage is: [max] keeps a first item that is NaN and
    never takes a later one, so a NaN among the three other percentages
    does not show in the utilization. *)
Theorem utilization_is_nan_iff_cpu_usage_is :
  forall (capacity_replies : list (api_reply capacity_record))
         (records : list usage_record) (self' : self_state)
         (node : node_record) (entry : utilization_entry),
    ingest_all (save_capacity_data init capacity_replies) records = Ok self' ->
    In node (node_id_wise_reponse self') ->
    In entry (utilization_detail node) ->
    is_nan (e_utilization entry)
    = is_nan (get (e_details entry) "cpu_usage_percentage" (Z2F 0)).
Proof.
  intros capacity_replies records self' node entry H Hn He.
  apply schema_nan.
  assert (K : report_schema (node_id_wise_reponse self')).
  { apply (ingest_all_preserves
             (fun s => report_schema (node_id_wise_reponse s)))
      with (records := records) (self := save_capacity_data init capacity_replies);
      [| rewrite save_capacity_data_nodes; constructor | exact H].
    intros s s' r K E. eapply ingest_schema; eassumption. }
  unfold report_schema in K. rewrite Forall_forall in K.
  specialize (K node Hn). rewrite Forall_forall in K. exact (K entry He).
Qed.

Lemma utilization_is_nan_iff_cpu_usage_is_witness :
  ingest_all (save_capacity_data init [capacity_reply]) [usage_nan_memory]
  = Ok (set_node_id_wise_reponse loaded
          [node_n1 [entry_ns1 (Z2F 50)
                      (bundle (Z2F 50) S754_nan (Z2F 25) (Z2F 25))]])
  /\ is_nan (e_utilization
               (entry_ns1 (Z2F 50) (bundle (Z2F 50) S754_nan (Z2F 25) (Z2F 25))))
     = is_nan (get (bundle (Z2F 50) S754_nan (Z2F 25) (Z2F 25))
                 "cpu_usage_percentage" (Z2F 0)).
Proof.
  assert (E : ingest_all (save_capacity_data init [capacity_reply])
                [usage_nan_memory]
              = Ok (set_node_id_wise_reponse loaded
                      [node_n1 [entry_ns1 (Z2F 50)
                                  (bundle (Z2F 50) S754_nan (Z2F 25) (Z2F 25))]]))
    by (vm_compute; reflexivity).
  split; [exact E|].
  exact (utilization_is_nan_iff_cpu_usage_is [capacity_reply] [usage_nan_memory]
           _ (node_n1 [entry_ns1 (Z2F 50)
                         (bundle (Z2F 50) S754_nan (Z2F 25) (Z2F 25))])
           (entry_ns1 (Z2F 50) (bundle (Z2F 50) S754_nan (Z2F 25) (Z2F 25)))
           E (or_introl eq_refl) (or_introl eq_refl)).
Defined.
